(** * fish-nerf: the training/rendering driver ([run.py]) and the frame
    renderer ([utils/render.py]), embedded shallowly.

    Numeric arrays are lists; floating-point numbers are idealised as the
    reals (angles, poses, densities) or as exact rationals (pixel
    colours), and the eye positions of the surround cameras are computed
    a second time in IEEE binary64, as the code runs them; registries are
    finite maps keyed by strings; code that raises returns a [result]. *)

From Stdlib Require Import Floats.
From Stdlib Require Import Reals Lra Lia ZArith QArith Qreals List Sorted.
From stdpp Require Import base option list strings gmap.

Set Default Proof Using "Type".

(** ** Exceptions and results *)

Inductive exn : Type :=
  | ModuleNotFoundError (module : string)
  | ImportError (module name : string)
  | KeyError (key : string)
  | IndexError
  | ValueError
  | RuntimeError
  | ZeroDivisionError
  | NameError (name : string)
  | UnboundLocalError (name : string).

Inductive result (A : Type) : Type :=
  | Ok (a : A)
  | Raise (e : exn).
Arguments Ok {A} a.
Arguments Raise {A} e.

(** Statements run in sequence; the first exception raised aborts the
    rest.  With these instances [x ← c; k] is stdpp's bind notation. *)
#[global] Instance result_ret : MRet result := fun _ a => Ok a.
#[global] Instance result_bind : MBind result := fun _ _ k r =>
  match r with
  | Ok a => k a
  | Raise e => Raise e
  end.

Definition is_import_error (e : exn) : bool :=
  match e with
  | ModuleNotFoundError _ | ImportError _ _ => true
  | _ => false
  end.

(** ** The volumetric compositing rule *)

Module Compositing.
Local Open Scope R_scope.


(** Modelled from the spec: step 2, the local opacity of one sample. *)
Definition alpha (ceiling sigma delta : R) : R :=
  1 - exp (- Rmin (sigma * delta) ceiling).

(** Modelled from the spec: step 2 along a ray, one local opacity per
    sample that has a spacing. *)
Fixpoint alphas (ceiling : R) (sigmas deltas : list R) : list R :=
  match sigmas, deltas with
  | s :: sigmas', d :: deltas' => alpha ceiling s d :: alphas ceiling sigmas' deltas'
  | _, _ => []
  end.

(** Modelled from the spec: steps 3 and 4.  [T] is the transmittance
    reaching the head of the list; it starts at 1. *)
Fixpoint weights_from (T : R) (als : list R) : list R :=
  match als with
  | [] => []
  | a :: rest => T * a :: weights_from (T * (1 - a)) rest
  end.

(** Modelled from the spec: step 4, the weights of a ray ([T_1 = 1]). *)
Definition weights (als : list R) : list R := weights_from 1 als.

Definition Rsum (l : list R) : R := fold_right Rplus 0 l.

(** Modelled from the spec: step 6, the accumulated opacity of a ray. *)
Definition opacity (ceiling : R) (sigmas deltas : list R) : R :=
  Rsum (weights (alphas ceiling sigmas deltas)).


(** "The accumulated opacity tends to [l] as every density tends to
    infinity", for a ray whose spacings are [deltas]. *)
Definition opacity_tends_to (ceiling : R) (deltas : list R) (l : R) : Prop :=
  forall eps, 0 < eps ->
  exists M, forall sigmas,
    length sigmas = length deltas ->
    Forall (fun s => M <= s) sigmas ->
    Rabs (opacity ceiling sigmas deltas - l) < eps.

Definition Rprod (l : list R) : R := fold_right Rmult 1 l.


End Compositing.

(** ** Array helpers (numpy / torch / scipy operations the code uses) *)

Module Numpy.

(** [np.linspace(start, stop, num)]: [num] evenly spaced values with both
    end points included; a negative [num] raises [ValueError].  For
    [num = 1] the step divides by zero and is multiplied by the index 0,
    so the only value is [start], as in numpy. *)
Definition linspace (start stop : R) (num : Z) : result (list R) :=
  if (num <? 0)%Z then Raise ValueError
  else Ok (map (fun k : nat => (start + INR k * ((stop - start) / (IZR num - 1)))%R)
               (seq 0 (Z.to_nat num))).

(** The slice [a[:-1]]: everything but the last element. *)
Definition drop_last {A} (l : list A) : list A := removelast l.

(** Indexing one axis with a Python integer: negative indices count from
    the end, anything outside [-len, len) raises [IndexError]. *)
Definition py_index {A} (l : list A) (i : Z) : result A :=
  let n := Z.of_nat (length l) in
  let j := if (i <? 0)%Z then (i + n)%Z else i in
  if ((0 <=? j) && (j <? n))%Z
  then match nth_error l (Z.to_nat j) with
       | Some a => Ok a
       | None => Raise IndexError
       end
  else Raise IndexError.

(** [np.zeros((d0, d1, 3))] with one value of type [A] per cell of the
    first two axes; a negative dimension raises [ValueError]. *)
Definition zeros {A} (zero : A) (d0 d1 : Z) : result (list (list A)) :=
  if ((d0 <? 0) || (d1 <? 0))%Z then Raise ValueError
  else Ok (repeat (repeat zero (Z.to_nat d1)) (Z.to_nat d0)).

Fixpoint count_true (row : list bool) : nat :=
  match row with
  | [] => 0
  | b :: row' => (if b then 1 else 0) + count_true row'
  end.

Definition mask_count (mask : list (list bool)) : nat := count_true (concat mask).

(** Two nested lists have the same extent along both axes. *)
Fixpoint same_shape {A B} (a : list (list A)) (b : list (list B)) : bool :=
  match a, b with
  | [], [] => true
  | ra :: a', rb :: b' => (length ra =? length rb)%nat && same_shape a' b'
  | _, _ => false
  end.

(** One row of a boolean-mask assignment: the cells under a true mask bit
    take the next values in order, the others keep what they hold.
    Returns the new row and the values not yet used. *)
Fixpoint fill_row {A} (row : list A) (mrow : list bool) (vals : list A)
  : list A * list A :=
  match row, mrow with
  | c :: row', b :: mrow' =>
      if b then
        match vals with
        | v :: vals' => let '(r, rest) := fill_row row' mrow' vals' in (v :: r, rest)
        | [] => let '(r, rest) := fill_row row' mrow' [] in (c :: r, rest)
        end
      else let '(r, rest) := fill_row row' mrow' vals in (c :: r, rest)
  | _, _ => (row, vals)
  end.

Fixpoint fill {A} (img : list (list A)) (mask : list (list bool)) (vals : list A)
  : list (list A) :=
  match img, mask with
  | row :: img', mrow :: mask' =>
      let '(r, rest) := fill_row row mrow vals in r :: fill img' mask' rest
  | _, _ => img
  end.

(** [img[mask, :] = vals] for an array [img] of shape (d0, d1, 3), a
    boolean [mask] of shape (d0, d1) and [vals] of shape (N, 3): the
    selected cells, in row-major order, receive the rows of [vals].  A
    mask of another shape raises [IndexError]; [vals] must have one row
    per selected cell, or a single row that is broadcast to all of them,
    else [ValueError]. *)
Definition masked_assign {A} (img : list (list A)) (mask : list (list bool))
    (vals : list A) : result (list (list A)) :=
  if negb (same_shape img mask) then Raise IndexError
  else if (length vals =? mask_count mask)%nat then Ok (fill img mask vals)
  else match vals with
       | [v] => Ok (fill img mask (repeat v (mask_count mask)))
       | _ => Raise ValueError
       end.



End Numpy.

Module Scipy.

(** [Rotation]: scipy stores a rotation as a unit quaternion (x, y, z, w),
    which is what [as_quat] returns. *)
Record Rotation : Type := { as_quat : list R }.

Definition deg2rad (a : R) : R := (a * PI / 180)%R.

(** [Rotation.from_euler('z', angle, degrees=...)]: the elementary rotation
    about the z axis, by [angle] taken in degrees when [degrees] is set and
    in radians otherwise. *)
Definition from_euler_z (angle : R) (degrees : bool) : Rotation :=
  let a := if degrees then deg2rad angle else angle in
  {| as_quat := [0%R; 0%R; sin (a / 2); cos (a / 2)] |}.

End Scipy.

(** ** The arithmetic of the surround cameras in IEEE binary64

    [np.linspace] and the eye positions of [create_surround_cameras] on
    binary64 numbers, operation for operation.  Addition, multiplication,
    division and square root are the correctly rounded ones of IEEE 754;
    the cosine and the sine are the library's, taken as an interface. *)

Module Binary64.
Local Open Scope float_scope.

(** [np.pi], the binary64 number nearest to pi. *)
Definition np_pi : float := 0x1.921fb54442d18p+1.

(** A count as a binary64 number (exact below 2^53). *)
Definition of_count (k : Z) : float := PrimFloat.of_uint63 (Uint63.of_Z k).

(** [np.cos] and [np.sin] on binary64 numbers. *)
Class Libm : Type := {
  np_cos : float -> float;
  np_sin : float -> float
}.

(** [np.linspace(start, stop, num)]: [step = (stop - start) / (num - 1)],
    value k is [k * step + start] (computed as [k / (num - 1) * delta +
    start] when the step underflows to zero, and as [k * delta + start]
    for [num <= 1]), and the last of two or more values is [stop] itself;
    a negative [num] raises [ValueError]. *)
Definition linspace (start stop : float) (num : Z) : result (list float) :=
  if (num <? 0)%Z then Raise ValueError
  else
    let div := (num - 1)%Z in
    let delta := stop - start in
    let y (k : nat) : float :=
      if (0 <? div)%Z then
        let step := delta / of_count div in
        if step =? 0 then of_count (Z.of_nat k) / of_count div * delta + start
        else of_count (Z.of_nat k) * step + start
      else of_count (Z.of_nat k) * delta + start in
    Ok (map (fun k : nat =>
               if ((1 <? num) && (Z.of_nat k =? num - 1))%Z then stop else y k)
          (seq 0 (Z.to_nat num))).

(** The eye position of one surround camera, in binary64. *)
Definition eye `{Libm} (radius : float) (up : list float) (theta : float)
  : result (list float) :=
  up1 ← Numpy.py_index up 1;
  if 0 <? PrimFloat.abs up1
  then Ok [np_cos (theta + np_pi / 2) * radius; 0; - np_sin (theta + np_pi / 2) * radius]
  else Ok [np_cos (theta + np_pi / 2) * radius; np_sin (theta + np_pi / 2) * radius; 2].








End Binary64.

(** ** Data of the pipeline *)

Definition rgb : Type := (Q * Q * Q)%type.
Definition Mask : Type := list (list bool).
(** A rendered frame: an array of shape (W, H, 3). *)
Definition Image : Type := list (list rgb).
(** A pose: a flat vector of numbers (translation, then quaternion). *)
Definition Pose : Type := list R.
(** Pixel coordinates: a (2, N) integer tensor, kept as its N columns
    (x, y); row 0 holds the x (column) and row 1 the y (row) coordinates. *)
Definition PixelCoords : Type := list (Z * Z).
(** A ground-truth image: a (1, 3, H, W) tensor, kept as its three
    colour planes, each a list of H rows of W values. *)
Definition GtImage : Type := (list (list Q) * list (list Q) * list (list Q))%type.

Definition zero_rgb : rgb := (0%Q, 0%Q, 0%Q).

Record ShapeStruct : Type := { ss_H : Z; ss_W : Z }.

(** The camera model is its configuration; [LinearSphere] builds it. *)
Record CameraModel : Type := LinearSphere {
  cam_fov_degree : Q;
  ss : ShapeStruct;
  in_to_tensor : bool;
  out_to_numpy : bool
}.

Record CfgNode : Type := { type : string; options : list (string * Q) }.

Record DataCfg : Type := {
  fov_degree : Q;
  image_shape : list Z;
  traj_data_root : string
}.

Record TrainingCfg : Type := {
  batch_size : Z;
  num_epochs : Z;
  lr : Q;
  lr_scheduler_gamma : Q;
  lr_scheduler_step_size : Q;
  checkpoint_path : string;
  checkpoint_interval : Z;
  render_interval : Z;
  resume : bool
}.

Record Cfg : Type := {
  data : DataCfg;
  training : TrainingCfg;
  implicit_function : CfgNode;
  cfg_sampler : CfgNode;
  cfg_renderer : CfgNode;
  debug : bool;
  vis_style : string
}.

(** The output dictionary of a forward pass; only its "feature" entry is
    read. *)
Record Out : Type := { feature : list rgb }.

(** What the code does to the outside, in the order it does it. *)
Inductive event : Type :=
  | EvGetValidMask (cam : CameraModel)
  | EvGetRandomPixels (n : Z) (image_size : list Z) (cam : CameraModel) (mask : Mask)
  | EvGetPixels (cam : CameraModel) (mask : Mask) (filter_valid : bool)
  | EvGetRays (pixel_coords : PixelCoords) (pose : Pose) (dbg : bool)
  | EvForward (grad_enabled : bool)
  | EvAssemble (mask : Mask)
  | EvZeroGrad
  | EvBackward
  | EvOptimizerStep
  | EvLrSchedulerStep
  | EvSaveCheckpoint (epoch : Z)
  | EvImshow
  | EvImsave (file_prefix : string) (theta : R)
  | EvMimsave (epoch : Z) (frames : nat)
  | EvCuda
  | EvTrainMode
  | EvMakedirs
  | EvLoadStateDict
  | EvPrint.

Definition is_get_valid_mask (e : event) : bool :=
  match e with EvGetValidMask _ => true | _ => false end.

Definition count_events (p : event -> bool) (t : list event) : nat :=
  length (List.filter p t).

(** The masks handed to the pixel helpers and to image assembly. *)
Definition masks_used (t : list event) : list Mask :=
  flat_map (fun e => match e with
                     | EvGetRandomPixels _ _ _ m | EvGetPixels _ m _ | EvAssemble m => [m]
                     | _ => []
                     end) t.

(** The poses rays were generated for. *)
Definition poses_used (t : list event) : list Pose :=
  flat_map (fun e => match e with EvGetRays _ p _ => [p] | _ => [] end) t.

(** The gradient mode of each forward pass. *)
Definition forward_modes (t : list event) : list bool :=
  flat_map (fun e => match e with EvForward g => [g] | _ => [] end) t.

(** ** The collaborators outside these two files

    The camera helpers, the ray generator, the registries of variants, the
    renderer, automatic differentiation, the optimiser and the random
    number generator are taken as an interface. *)
Class Externals : Type := {
  RayBundle : Type;
  Volume : Type;
  Sampler : Type;
  Renderer : Type;
  ParamTensor : Type;
  Grad : Type;
  Optimizer : Type;
  Rng : Type;
  PixelXys : Type;
  LookAt : Type;
  (* image_resampling.mvs_utils.camera_models *)
  get_valid_mask : CameraModel -> Mask;
  (* fish_nerf.ray *)
  get_random_pixels_from_image :
    Rng -> Z -> list Z -> CameraModel -> Mask -> result (PixelCoords * PixelXys) * Rng;
  get_pixels_from_image : CameraModel -> Mask -> bool -> result (PixelCoords * PixelXys);
  get_rays_from_pixels :
    PixelCoords -> CameraModel -> list (list Z) -> Pose -> bool -> result RayBundle;
  to_float32 : RayBundle -> RayBundle;
  (* fish_nerf.models, fish_nerf.sampler, fish_nerf.renderer *)
  volume_dict : gmap string (CfgNode -> Volume);
  sampler_dict : gmap string (CfgNode -> Sampler);
  renderer_dict : gmap string (CfgNode -> Renderer);
  (* the forward pass reads the implicit volume: spec 4.3 and 5 have it a pure
     batched function that does not mutate the parameters *)
  renderer_call : Renderer -> Sampler -> Volume -> RayBundle -> result Out;
  parameters : Volume -> list ParamTensor;
  (* torch autograd and torch.optim *)
  loss_gradient : Renderer -> Sampler -> Volume -> RayBundle -> list rgb -> Grad;
  optimizer_step : Optimizer -> Volume -> Grad -> Optimizer * Volume;
  lr_scheduler_step : Optimizer -> Optimizer;
  adam : Volume -> Q -> Optimizer;
  optimizer_load_state_dict : Optimizer -> Optimizer -> Z -> Optimizer;
  lambda_lr : Optimizer -> Q -> Q -> Z -> Optimizer;
  (* utils.dataset, torch.utils.data, the file system *)
  get_dataset :
    string -> list Z -> result (list (GtImage * Pose) * list (GtImage * Pose));
  data_loader :
    Rng -> list (GtImage * Pose) -> list (list (GtImage * Pose)) * Rng;
  checkpoint_file : string -> string;
  isfile : string -> bool;
  torch_load : string -> result (Volume * Optimizer * Z);
  (* random *)
  rng_next : Rng -> nat * Rng;
  (* pytorch3d.renderer *)
  look_at_view_transform : list R -> list R -> list R -> result LookAt
}.

Section Program.
Context `{Ext : Externals}.

(** The [Model] object.  Its implicit volume is the one part that is
    written after construction (by the optimiser, in place), so the
    current volume is kept in the [world]; the other attributes are
    assigned once, in [Model_init]. *)
Record Model : Type := {
  camera_model : CameraModel;
  valid_mask : Mask;
  X_ned_cam : list (list Z);
  sampler : Sampler;
  renderer : Renderer
}.

Record world : Type := World {
  w_implicit_fn : Volume;
  w_optimizer : Optimizer;
  w_grad_enabled : bool;
  w_rng : Rng;
  w_trace : list event
}.

Definition set_implicit_fn (v : Volume) (w : world) : world :=
  World v (w_optimizer w) (w_grad_enabled w) (w_rng w) (w_trace w).
Definition set_optimizer (o : Optimizer) (w : world) : world :=
  World (w_implicit_fn w) o (w_grad_enabled w) (w_rng w) (w_trace w).
Definition set_grad_enabled (g : bool) (w : world) : world :=
  World (w_implicit_fn w) (w_optimizer w) g (w_rng w) (w_trace w).
Definition set_rng (r : Rng) (w : world) : world :=
  World (w_implicit_fn w) (w_optimizer w) (w_grad_enabled w) r (w_trace w).
Definition log (e : event) (w : world) : world :=
  World (w_implicit_fn w) (w_optimizer w) (w_grad_enabled w) (w_rng w) (w_trace w ++ [e]).

(** Code that reads and writes the world and may raise. *)
Definition M (A : Type) : Type := world -> result (A * world).

#[global] Instance M_ret : MRet M := fun _ a w => Ok (a, w).
#[global] Instance M_bind : MBind M := fun _ _ k m w =>
  match m w with
  | Ok (a, w') => k a w'
  | Raise e => Raise e
  end.

Definition emit (e : event) : M unit := fun w => Ok (tt, log e w).
Definition lift {A} (r : result A) : M A :=
  fun w => match r with Ok a => Ok (a, w) | Raise e => Raise e end.
Definition raise {A} (e : exn) : M A := fun _ => Raise e.
Definition get_world : M world := fun w => Ok (w, w).

(** [with torch.no_grad(): body]: gradient tracking is switched off for
    the body and put back to what it was afterwards. *)
Definition no_grad {A} (body : M A) : M A := fun w =>
  match body (set_grad_enabled false w) with
  | Ok (a, w') => Ok (a, set_grad_enabled (w_grad_enabled w) w')
  | Raise e => Raise e
  end.

(** [Model.forward]: the renderer is called with the sampler, the implicit
    volume and the rays. *)
Definition forward (model : Model) (ray_bundle : RayBundle) : M Out :=
  w ← get_world;
  _ ← emit (EvForward (w_grad_enabled w));
  lift (renderer_call (renderer model) (sampler model) (w_implicit_fn w) ray_bundle).


(** *** utils/render.py *)

(** A pytorch3d camera, as [create_surround_cameras] builds it. *)
Record PerspectiveCameras : Type := {
  focal_length : R;
  principal_point : R * R;
  cam_RT : LookAt   (* the pair (R, T) of the look-at transform *)
}.

(** The eye position of one surround camera. *)
Definition eye (radius : R) (up : list R) (theta : R) : result (list R) :=
  up1 ← Numpy.py_index up 1;
  if Rgt_dec (Rabs up1) 0
  then Ok [cos (theta + PI / 2) * radius; 0; - sin (theta + PI / 2) * radius]%R
  else Ok [cos (theta + PI / 2) * radius; sin (theta + PI / 2) * radius; 2]%R.

Fixpoint surround_loop (radius : R) (up : list R) (focal : R) (thetas : list R)
    (cameras : list PerspectiveCameras) : result (list PerspectiveCameras) :=
  match thetas with
  | [] => Ok cameras
  | theta :: rest =>
      e ← eye radius up theta;
      RT ← look_at_view_transform e [0; 0; 0]%R up;
      surround_loop radius up focal rest
        (cameras ++ [ {| focal_length := focal; principal_point := (0, 0)%R;
                         cam_RT := RT |} ])
  end.

Definition create_surround_cameras (radius : R) (n_poses : Z) (up : list R)
    (focal : R) : result (list PerspectiveCameras) :=
  thetas ← Numpy.linspace 0 (2 * PI) (n_poses + 1);
  surround_loop radius up focal (Numpy.drop_last thetas) [].

(** "Return rendered features (colors)": a zero image of shape (W, H, 3)
    whose cells under the validity mask receive the per-ray colours. *)
Definition assemble_image (model : Model) (out : Out) : result Image :=
  image ← Numpy.zeros zero_rgb (ss_W (ss (camera_model model)))
             (ss_H (ss (camera_model model)));
  Numpy.masked_assign image (valid_mask model) (feature out).

(** The body of the loop of [render_images], for one angle. *)
Definition render_frame (model : Model) (translation : list R) (save : bool)
    (file_prefix : string) (theta : R) : M Image :=
  let quat := Scipy.as_quat (Scipy.from_euler_z theta true) in
  let pose := translation ++ quat in
  _ ← emit (EvGetPixels (camera_model model) (valid_mask model) true);
  '(pixel_coords, pixel_xys) ←
    lift (get_pixels_from_image (camera_model model) (valid_mask model) true);
  _ ← emit (EvGetRays pixel_coords pose false);
  ray_bundle ←
    lift (get_rays_from_pixels pixel_coords (camera_model model) (X_ned_cam model)
            pose false);
  let ray_bundle := to_float32 ray_bundle in
  out ← forward model ray_bundle;
  _ ← emit (EvAssemble (valid_mask model));
  image ← lift (assemble_image model out);
  _ ← (if save then emit (EvImsave file_prefix theta) else mret tt);
  mret image.

Fixpoint render_loop (model : Model) (translation : list R) (save : bool)
    (file_prefix : string) (thetas : list R) (all_images : list Image)
  : M (list Image) :=
  match thetas with
  | [] => mret all_images
  | theta :: rest =>
      image ← render_frame model translation save file_prefix theta;
      render_loop model translation save file_prefix rest (all_images ++ [image])
  end.

Definition render_images (model : Model) (translation : list R) (num_images : Z)
    (save : bool) (file_prefix : string) : M (list Image) :=
  w ← get_world;
  device ← lift (Numpy.py_index (parameters (w_implicit_fn w)) 0);
  thetas ← lift (Numpy.linspace 0 (2 * PI) (num_images + 1));
  render_loop model translation save file_prefix (Numpy.drop_last thetas) [].


(** *** run.py *)

Definition modify (f : world -> world) : M unit := fun w => Ok (tt, f w).

(** Subscripting a registry with a name that is not a key raises
    [KeyError]. *)
Definition lookup_registry {A} (d : gmap string A) (k : string) : result A :=
  match d !! k with
  | Some a => Ok a
  | None => Raise (KeyError k)
  end.

(** [Model.__init__]. *)
Definition Model_init (cfg : Cfg) : M Model :=
  let cam := LinearSphere (fov_degree (data cfg)) {| ss_H := 256; ss_W := 256 |}
               false false in
  _ ← emit (EvGetValidMask cam);
  let mask := get_valid_mask cam in
  let X := [[0; 0; 1; 0]; [1; 0; 0; 0]; [0; 1; 0; 0]; [0; 0; 0; 1]]%Z in
  make_volume ← lift (lookup_registry volume_dict (type (implicit_function cfg)));
  _ ← modify (set_implicit_fn (make_volume (implicit_function cfg)));
  make_sampler ← lift (lookup_registry sampler_dict (type (cfg_sampler cfg)));
  let the_sampler := make_sampler (cfg_sampler cfg) in
  make_renderer ← lift (lookup_registry renderer_dict (type (cfg_renderer cfg)));
  let the_renderer := make_renderer (cfg_renderer cfg) in
  mret {| camera_model := cam; valid_mask := mask; X_ned_cam := X;
          sampler := the_sampler; renderer := the_renderer |}.

(** [create_model]: the model, the epoch to start from and the checkpoint
    path; the optimiser (with its scheduler) is left in the world. *)
Definition create_model (cfg : Cfg) : M (Model * Z * string) :=
  model ← Model_init cfg;
  _ ← emit EvCuda;
  _ ← emit EvTrainMode;
  let path := checkpoint_file (checkpoint_path (training cfg)) in
  loaded ←
    (if (0 <? String.length (checkpoint_path (training cfg)))%nat then
       _ ← emit EvMakedirs;
       if resume (training cfg) && isfile path then
         _ ← emit EvPrint;
         '(vol, opt, epoch) ← lift (torch_load path);
         _ ← emit EvLoadStateDict;
         _ ← modify (set_implicit_fn vol);
         _ ← emit EvPrint;
         mret (Some (opt, epoch))
       else mret None
     else mret None);
  let start_epoch := match loaded with Some (_, e) => e | None => 0%Z end in
  w ← get_world;
  let optimizer := adam (w_implicit_fn w) (lr (training cfg)) in
  let optimizer :=
    match loaded with
    | Some (st, e) => optimizer_load_state_dict optimizer st e
    | None => optimizer
    end in
  _ ← modify (set_optimizer
         (lambda_lr optimizer (lr_scheduler_gamma (training cfg))
            (lr_scheduler_step_size (training cfg)) (start_epoch - 1)));
  mret (model, start_epoch, path).

(** [image[:, :, ys, xs]] at one pixel of one colour plane. *)
Definition sample_plane (plane : list (list Q)) (xy : Z * Z) : result Q :=
  row ← Numpy.py_index plane (snd xy);
  Numpy.py_index row (fst xy).

(** The colour of the ground-truth image at one pixel coordinate. *)
Definition sample_pixel (image : GtImage) (xy : Z * Z) : result rgb :=
  let '(pr, pg, pb) := image in
  r ← sample_plane pr xy;
  g ← sample_plane pg xy;
  b ← sample_plane pb xy;
  Ok (r, g, b).

(** [image[:, :, pixel_coords[1, :].long(), pixel_coords[0, :].long()]
    .squeeze(0).transpose(0, 1)]: one colour per pixel coordinate, shape
    (N, 3). *)
Fixpoint sample_image (image : GtImage) (pixel_coords : PixelCoords)
  : result (list rgb) :=
  match pixel_coords with
  | [] => Ok []
  | xy :: rest =>
      c ← sample_pixel image xy;
      cs ← sample_image image rest;
      Ok (c :: cs)
  end.

Definition sq_err (a b : rgb) : Q :=
  let '(r1, g1, b1) := a in
  let '(r2, g2, b2) := b in
  ((r1 - r2) * (r1 - r2) + (g1 - g2) * (g1 - g2) + (b1 - b2) * (b1 - b2))%Q.

Definition Qsum (l : list Q) : Q := fold_right Qplus 0%Q l.

(** The mean of the squared differences of two arrays of the same shape,
    over all their numbers; [None] is the not-a-number torch returns for
    empty arrays. *)
Definition mean_sq_err (input target : list rgb) : option Q :=
  match input with
  | [] => None
  | _ => Some (Qsum (zip_with sq_err input target)
               / inject_Z (Z.of_nat (3 * length input)))%Q
  end.

(** [torch.nn.functional.mse_loss(input, target)] on arrays of shapes
    (N, 3) and (M, 3): the arrays are broadcast against each other first,
    which needs [N = M] or one of them to be 1. *)
Definition mse_loss (input target : list rgb) : result (option Q) :=
  if (length input =? length target)%nat then Ok (mean_sq_err input target)
  else match input, target with
       | [a], _ => Ok (mean_sq_err (repeat a (length target)) target)
       | _, [b] => Ok (mean_sq_err input (repeat b (length input)))
       | _, _ => Raise RuntimeError
       end.

Definition pose_eq_dec : forall p q : Pose, {p = q} + {p <> q} :=
  List.list_eq_dec Req_dec_T.

(** [seen_camera_poses.add(tuple(pose))] on a set kept as a duplicate-free
    list. *)
Definition set_add (p : Pose) (seen : list Pose) : list Pose :=
  if List.in_dec pose_eq_dec p seen then seen else seen ++ [p].

(** [random.sample(population, 1)[0]]. *)
Definition random_sample_one {A} (population : list A) : M A :=
  w ← get_world;
  let '(k, rng) := rng_next (w_rng w) in
  match nth_error population (k mod length population) with
  | Some a => _ ← modify (set_rng rng); mret a
  | None => raise ValueError
  end.

(** The debug plots of one iteration; marking the sampled pixels indexes
    an (H, W, 3) array at [y, x]. *)
Definition show_debug (model : Model) (image : GtImage) (pixel_coords : PixelCoords)
  : M unit :=
  _ ← emit EvImshow;
  _ ← lift (sample_image image pixel_coords);
  emit EvImshow.

(** One pass of the inner loop of [train] (one batch): returns the loss
    and the set of poses seen so far. *)
Definition train_iteration (cfg : Cfg) (model : Model) (image_size : list Z)
    (batch : list (GtImage * Pose)) (seen : list Pose)
  : M (option Q * list Pose) :=
  '(image, pose) ← lift (Numpy.py_index batch 0);
  let seen := set_add pose seen in
  w ← get_world;
  let '(sampled, rng) :=
    get_random_pixels_from_image (w_rng w) (batch_size (training cfg)) image_size
      (camera_model model) (valid_mask model) in
  _ ← modify (set_rng rng);
  _ ← emit (EvGetRandomPixels (batch_size (training cfg)) image_size
              (camera_model model) (valid_mask model));
  '(pixel_coords, pixel_xys) ← lift sampled;
  _ ← (if debug cfg then show_debug model image pixel_coords else mret tt);
  _ ← emit (EvGetRays pixel_coords pose (debug cfg));
  ray_bundle ←
    lift (get_rays_from_pixels pixel_coords (camera_model model) (X_ned_cam model)
            pose (debug cfg));
  rgb_gt ← lift (sample_image image pixel_coords);
  out ← forward model ray_bundle;
  loss ← lift (mse_loss (feature out) rgb_gt);
  _ ← emit EvZeroGrad;
  w ← get_world;
  if w_grad_enabled w then
    _ ← emit EvBackward;
    let grad := loss_gradient (renderer model) (sampler model) (w_implicit_fn w)
                  ray_bundle rgb_gt in
    let '(opt, vol) := optimizer_step (w_optimizer w) (w_implicit_fn w) grad in
    _ ← emit EvOptimizerStep;
    _ ← modify (fun w => set_optimizer opt (set_implicit_fn vol w));
    mret (loss, seen)
  else raise RuntimeError.

Fixpoint train_batches (cfg : Cfg) (model : Model) (image_size : list Z)
    (batches : list (list (GtImage * Pose))) (seen : list Pose) : M (list Pose) :=
  match batches with
  | [] => mret seen
  | batch :: rest =>
      '(loss, seen) ← train_iteration cfg model image_size batch seen;
      train_batches cfg model image_size rest seen
  end.

(** [epoch % interval == 0]; a zero interval raises. *)
Definition divides (interval epoch : Z) : result bool :=
  if (interval =? 0)%Z then Raise ZeroDivisionError
  else Ok ((epoch mod interval =? 0)%Z).

(** The "Render" block that ends an epoch. *)
Definition render_block (cfg : Cfg) (model : Model) (epoch : Z) (seen : list Pose)
  : M unit :=
  due ← lift (divides (render_interval (training cfg)) epoch);
  if due && (0 <? epoch)%Z then
    no_grad (
      test_images ← (
        if String.eqb (vis_style cfg) "random_pose" then
          random_pose ← random_sample_one seen;
          _ ← emit EvPrint;
          imgs ← render_images model (take 3 random_pose) 20 false "";
          mret (Some imgs)
        else mret None);
      test_images ← (
        if String.eqb (vis_style cfg) "trajectory" then
          _ ← emit EvPrint;
          raise (NameError "render_images_in_poses")
        else mret test_images);
      match test_images with
      | Some imgs => emit (EvMimsave epoch (length imgs))
      | None => raise (UnboundLocalError "test_images")
      end)
  else mret tt.

(** The body of the loop over epochs. *)
Definition train_epoch (cfg : Cfg) (model : Model) (image_size : list Z)
    (train_dataset : list (GtImage * Pose)) (epoch : Z) (seen : list Pose)
  : M (list Pose) :=
  w ← get_world;
  let '(batches, rng) := data_loader (w_rng w) train_dataset in
  _ ← modify (set_rng rng);
  seen ← train_batches cfg model image_size batches seen;
  _ ← emit EvLrSchedulerStep;
  _ ← modify (fun w => set_optimizer (lr_scheduler_step (w_optimizer w)) w);
  due ← lift (divides (checkpoint_interval (training cfg)) epoch);
  _ ← (if due && (0 <? String.length (checkpoint_path (training cfg)))%nat
            && (0 <? epoch)%Z
       then _ ← emit EvPrint; emit (EvSaveCheckpoint epoch)
       else mret tt);
  _ ← render_block cfg model epoch seen;
  mret seen.

Fixpoint train_epochs (cfg : Cfg) (model : Model) (image_size : list Z)
    (train_dataset : list (GtImage * Pose)) (epochs : list Z) (seen : list Pose)
  : M unit :=
  match epochs with
  | [] => mret tt
  | epoch :: rest =>
      seen ← train_epoch cfg model image_size train_dataset epoch seen;
      train_epochs cfg model image_size train_dataset rest seen
  end.

(** [range(start, stop)]. *)
Definition range (start stop : Z) : list Z :=
  map (fun k : nat => (start + Z.of_nat k)%Z) (seq 0 (Z.to_nat (stop - start))).

Definition train (cfg : Cfg) : M unit :=
  width ← lift (Numpy.py_index (image_shape (data cfg)) 1);
  height ← lift (Numpy.py_index (image_shape (data cfg)) 0);
  let image_size := [width; height] in
  '(model, start_epoch, path) ← create_model cfg;
  '(train_dataset, val_dataset) ←
    lift (get_dataset (traj_data_root (data cfg)) [width; height]);
  train_epochs cfg model image_size train_dataset
    (range start_epoch (num_epochs (training cfg))) [].


(** *** Vocabulary for stating what a run did *)

(** The world after more events have been logged. *)
Definition logs (es : list event) (w : world) : world :=
  World (w_implicit_fn w) (w_optimizer w) (w_grad_enabled w) (w_rng w) (w_trace w ++ es).

(** The pose [render_images] builds for one angle. *)
Definition frame_pose (translation : list R) (theta : R) : Pose :=
  translation ++ Scipy.as_quat (Scipy.from_euler_z theta true).

(** The events of one frame of [render_images]. *)
Definition frame_events (model : Model) (pixel_coords : PixelCoords) (pose : Pose)
    (grad : bool) (save : bool) (file_prefix : string) (theta : R) : list event :=
  [EvGetPixels (camera_model model) (valid_mask model) true;
   EvGetRays pixel_coords pose false;
   EvForward grad;
   EvAssemble (valid_mask model)]
  ++ (if save then [EvImsave file_prefix theta] else []).

(** The events of the frames of one call of [render_images]. *)
Inductive frames_run (model : Model) (translation : list R) (grad save : bool)
    (file_prefix : string) : list R -> list Image -> list event -> Prop :=
  | frames_nil : frames_run model translation grad save file_prefix [] [] []
  | frames_cons theta thetas pixel_coords out img imgs evs :
      assemble_image model out = Ok img ->
      frames_run model translation grad save file_prefix thetas imgs evs ->
      frames_run model translation grad save file_prefix (theta :: thetas) (img :: imgs)
        (frame_events model pixel_coords (frame_pose translation theta) grad save
           file_prefix theta ++ evs).

(** Rendering never raises when the collaborators deliver: the model has
    parameters, the pixel helper and the ray generator succeed, and the
    renderer returns one colour per valid pixel of a mask of the sensor's
    shape. *)
Definition collaborators_deliver (model : Model) (vol : Volume) : Prop :=
  parameters vol <> []
  /\ (0 <= ss_W (ss (camera_model model)))%Z
  /\ (0 <= ss_H (ss (camera_model model)))%Z
  /\ length (valid_mask model) = Z.to_nat (ss_W (ss (camera_model model)))
  /\ Forall (fun row => length row = Z.to_nat (ss_H (ss (camera_model model))))
       (valid_mask model)
  /\ exists pixel_coords pixel_xys,
       get_pixels_from_image (camera_model model) (valid_mask model) true
         = Ok (pixel_coords, pixel_xys)
       /\ forall pose, exists rays out,
            get_rays_from_pixels pixel_coords (camera_model model) (X_ned_cam model)
              pose false = Ok rays
            /\ renderer_call (renderer model) (sampler model) vol (to_float32 rays)
               = Ok out
            /\ length (feature out) = Numpy.mask_count (valid_mask model).

(** The angle of frame [k] of [n], as a number. *)
Definition frame_angle (n : Z) (k : nat) : R := (2 * PI * INR k / IZR n)%R.


(** The events of one training iteration. *)
Definition iteration_events (cfg : Cfg) (model : Model) (image_size : list Z)
    (pixel_coords : PixelCoords) (pose : Pose) : list event :=
  [EvGetRandomPixels (batch_size (training cfg)) image_size (camera_model model)
     (valid_mask model)]
  ++ (if debug cfg then [EvImshow; EvImshow] else [])
  ++ [EvGetRays pixel_coords pose (debug cfg); EvForward true; EvZeroGrad;
      EvBackward; EvOptimizerStep].

(** The angles of the 20 frames rendered during training. *)
Definition training_angles : list R :=
  map (fun k : nat => (INR k * ((2 * PI - 0) / (IZR (20 + 1) - 1)))%R) (seq 0 20).

Definition is_optimizer_step (e : event) : bool :=
  match e with EvOptimizerStep => true | _ => false end.

(** The stored mask is reused: no call of [get_valid_mask], and every
    mask handed to a helper or used to assemble an image is the model's. *)
Definition reuses_mask (model : Model) (evs : list event) : Prop :=
  count_events is_get_valid_mask evs = 0
  /\ Forall (fun m => m = valid_mask model) (masks_used evs).

(** What a piece of the training loop does to the world: it logs [evs],
    leaves the gradient mode as it found it, reuses the stored mask, and
    leaves the implicit volume alone unless the optimiser stepped. *)
Definition summary (model : Model) (w w' : world) (evs : list event) : Prop :=
  w_trace w' = w_trace w ++ evs
  /\ w_grad_enabled w' = w_grad_enabled w
  /\ reuses_mask model evs
  /\ (count_events is_optimizer_step evs = 0 -> w_implicit_fn w' = w_implicit_fn w).

(** A pose built for rendering: the first three values of a seen pose,
    then the four values of a quaternion. *)
Definition is_render_pose (seen : list Pose) (pose : Pose) : Prop :=
  exists p theta,
    p ∈ seen
    /\ pose = take 3 p ++ Scipy.as_quat (Scipy.from_euler_z theta true).

(** The events between the batches and the render block of an epoch. *)
Definition epoch_end_events (cfg : Cfg) (epoch : Z) : list event :=
  [EvLrSchedulerStep]
  ++ (if ((epoch mod checkpoint_interval (training cfg) =? 0)%Z
          && (0 <? String.length (checkpoint_path (training cfg)))%nat
          && (0 <? epoch)%Z)
      then [EvPrint; EvSaveCheckpoint epoch] else []).

(** The camera every model is built with. *)
Definition model_camera (cfg : Cfg) : CameraModel :=
  LinearSphere (fov_degree (data cfg)) {| ss_H := 256; ss_W := 256 |} false false.



Definition is_lr_scheduler_step (e : event) : bool :=
  match e with EvLrSchedulerStep => true | _ => false end.

Definition is_save_checkpoint (e : event) : bool :=
  match e with EvSaveCheckpoint _ => true | _ => false end.

Definition is_mimsave (e : event) : bool :=
  match e with EvMimsave _ _ => true | _ => false end.

(** The guard of the "Render" block, for a nonzero interval. *)
Definition render_due (cfg : Cfg) (epoch : Z) : bool :=
  (epoch mod render_interval (training cfg) =? 0)%Z && (0 <? epoch)%Z.

(** The guard of the "Checkpoint" block, for a nonzero interval. *)
Definition checkpoint_due (cfg : Cfg) (epoch : Z) : bool :=
  (epoch mod checkpoint_interval (training cfg) =? 0)%Z
  && (0 <? String.length (checkpoint_path (training cfg)))%nat
  && (0 <? epoch)%Z.

(** The pose of the sample a batch is trained on (its first). *)
Definition batch_pose (batch : list (GtImage * Pose)) : option Pose :=
  match batch with
  | [] => None
  | (_, pose) :: _ => Some pose
  end.

End Program.

(** ** Loading the modules

    What executing the top-level statements of the two files does to the
    module's namespace.  Only the statements that bind names or import
    matter here. *)

Module Imports.

Inductive stmt : Type :=
  | SImport (module bound : string)              (* import m [as b] *)
  | SFromImport (module : string) (names : list string)
  | SDef (name : string)                         (* def / class *)
  | SExpr                                        (* an expression statement *)
  | SIfMain (callee : string).                   (* if __name__ == "__main__": f() *)

(** The installed packages: for a module name, the names it exports, or
    [None] when there is no such module. *)
Definition installed : Type := string -> option (gset string).

Definition find_installed (env : installed) (m : string) : result (gset string) :=
  match env m with
  | Some attrs => Ok attrs
  | None => Raise (ModuleNotFoundError m)
  end.

(** [from m import n1, n2, ...]: each name must be an attribute of the
    module; the first one that is not raises [ImportError]. *)
Fixpoint import_names (m : string) (attrs : gset string) (names : list string)
    (ns : gset string) : result (gset string) :=
  match names with
  | [] => Ok ns
  | n :: rest =>
      if decide (n ∈ attrs) then import_names m attrs rest ({[ n ]} ∪ ns)
      else Raise (ImportError m n)
  end.

Definition exec_stmt (find : string -> result (gset string)) (as_main : bool)
    (ns : gset string) (s : stmt) : result (gset string * option string) :=
  match s with
  | SImport m b => _ ← find m; Ok ({[ b ]} ∪ ns, None)
  | SFromImport m names =>
      attrs ← find m; ns' ← import_names m attrs names ns; Ok (ns', None)
  | SDef n => Ok ({[ n ]} ∪ ns, None)
  | SExpr => Ok (ns, None)
  | SIfMain f =>
      if as_main then
        if decide (f ∈ ns) then Ok (ns, Some f) else Raise (NameError f)
      else Ok (ns, None)
  end.

Fixpoint exec_module (find : string -> result (gset string)) (as_main : bool)
    (stmts : list stmt) (ns : gset string) (called : option string)
  : result (gset string * option string) :=
  match stmts with
  | [] => Ok (ns, called)
  | s :: rest =>
      '(ns', c) ← exec_stmt find as_main ns s;
      exec_module find as_main rest ns'
        (match c with Some f => Some f | None => called end)
  end.

(** The names a statement can bind. *)
Definition binds (s : stmt) : list string :=
  match s with
  | SImport _ b => [b]
  | SFromImport _ names => names
  | SDef n => [n]
  | SExpr | SIfMain _ => []
  end.

Definition is_main_guard (s : stmt) : bool :=
  match s with SIfMain _ => true | _ => false end.

(** The top-level statements of utils/render.py, in order. *)
Definition render_py : list stmt :=
  [ SImport "sys" "sys";
    SFromImport "scipy.spatial.transform" ["Rotation"];
    SExpr;
    SImport "matplotlib.pyplot" "plt";
    SImport "numpy" "np";
    SImport "torch" "torch";
    SFromImport "pytorch3d.renderer" ["PerspectiveCameras"];
    SFromImport "pytorch3d.renderer" ["look_at_view_transform"];
    SFromImport "fish_nerf.ray" ["get_pixels_from_image"];
    SFromImport "fish_nerf.ray" ["get_rays_from_pixels"];
    SDef "create_surround_cameras";
    SDef "render_images" ].

(** The top-level statements of run.py, in order. *)
Definition run_py : list stmt :=
  [ SImport "os" "os";
    SImport "random" "random";
    SImport "hydra" "hydra";
    SImport "imageio" "imageio";
    SImport "numpy" "np";
    SImport "torch" "torch";
    SImport "tqdm" "tqdm";
    SFromImport "omegaconf" ["DictConfig"];
    SImport "matplotlib.pyplot" "plt";
    SFromImport "fish_nerf.models" ["volume_dict"];
    SFromImport "fish_nerf.ray"
      ["get_random_pixels_from_image"; "get_rays_from_pixels"; "sample_images_at_xy"];
    SFromImport "fish_nerf.renderer" ["renderer_dict"];
    SFromImport "fish_nerf.sampler" ["sampler_dict"];
    SFromImport "image_resampling.mvs_utils.camera_models" ["LinearSphere"];
    SFromImport "image_resampling.mvs_utils.shape_struct" ["ShapeStruct"];
    SFromImport "utils.dataset" ["get_dataset"; "trivial_collate"];
    SFromImport "utils.render"
      ["create_surround_cameras"; "render_images"; "render_images_in_poses"];
    SExpr;
    SDef "Model";
    SDef "create_model";
    SDef "train";
    SDef "render";
    SDef "main";
    SIfMain "main" ].

(** Module lookup while run.py loads: [utils.render] is the file above,
    everything else comes from what is installed. *)
Definition find_module (env : installed) (m : string) : result (gset string) :=
  if String.eqb m "utils.render"
  then '(ns, _) ← exec_module (find_installed env) false render_py ∅ None; Ok ns
  else find_installed env m.

(** Loading run.py, as a script ([as_main]) or as an imported module. *)
Definition load_run_py (env : installed) (as_main : bool)
  : result (gset string * option string) :=
  exec_module (find_module env) as_main run_py ∅ None.

(** The entry points [main] dispatches to, by [cfg.type]. *)
Inductive entry : Type := EntryRender | EntryTrain.

Definition main (cfg_type : string) : option entry :=
  if String.eqb cfg_type "render" then Some EntryRender
  else if String.eqb cfg_type "train" then Some EntryTrain
  else None.

(** Running [python run.py] with a configuration of the given type: the
    entry point that gets to execute, if any. *)
Definition run_script (env : installed) (cfg_type : string) : result (option entry) :=
  '(ns, called) ← load_run_py env true;
  match called with
  | Some _ => Ok (main cfg_type)
  | None => Ok None
  end.

Definition only_import_errors (find : string -> result (gset string)) : Prop :=
  forall m e, find m = Raise e -> is_import_error e = true.

(** Whether what is installed satisfies the import a statement makes. *)
Definition satisfiable (env : installed) (s : stmt) : bool :=
  match s with
  | SImport m _ => match env m with Some _ => true | None => false end
  | SFromImport m names =>
      match env m with
      | Some attrs => forallb (fun n => bool_decide (n ∈ attrs)) names
      | None => false
      end
  | SDef _ | SExpr | SIfMain _ => true
  end.

(** The module a statement imports from. *)
Definition imported (s : stmt) : option string :=
  match s with
  | SImport m _ | SFromImport m _ => Some m
  | SDef _ | SExpr | SIfMain _ => None
  end.

(** The statements of run.py before the import from utils.render. *)
Definition run_py_head : list stmt := firstn 16 run_py.

End Imports.

(** ** A small instance of the collaborators, to run the code on *)

Module Fixture.

(** A lens with a single valid pixel, the first one. *)
Definition one_pixel_mask (cam : CameraModel) : Mask :=
  match Z.to_nat (ss_W (ss cam)), Z.to_nat (ss_H (ss cam)) with
  | S w, S h => (true :: repeat false h) :: repeat (repeat false (S h)) w
  | w, h => repeat (repeat false h) w
  end.

Definition red : rgb := (1%Q, 0%Q, 0%Q).

#[local] Instance toy : Externals := {|
  RayBundle := PixelCoords;
  Volume := nat;
  Sampler := unit;
  Renderer := unit;
  ParamTensor := unit;
  Grad := unit;
  Optimizer := nat;
  Rng := nat;
  PixelXys := unit;
  LookAt := (list R * list R * list R)%type;
  get_valid_mask := one_pixel_mask;
  get_random_pixels_from_image := fun rng _ _ _ _ => (Ok ([(0, 0)%Z], tt), S rng);
  get_pixels_from_image := fun _ mask _ =>
    Ok (repeat (0, 0)%Z (Numpy.mask_count mask), tt);
  get_rays_from_pixels := fun pixel_coords _ _ _ _ => Ok pixel_coords;
  to_float32 := fun rays => rays;
  volume_dict := {[ "grid" := fun _ => 0 ]};
  sampler_dict := {[ "stratified" := fun _ => tt ]};
  renderer_dict := {[ "volume" := fun _ => tt ]};
  renderer_call := fun _ _ _ rays => Ok {| feature := map (fun _ => red) rays |};
  parameters := fun _ => [tt];
  loss_gradient := fun _ _ _ _ _ => tt;
  optimizer_step := fun opt vol _ => (S opt, S vol);
  lr_scheduler_step := fun opt => opt;
  adam := fun _ _ => 0;
  optimizer_load_state_dict := fun _ st _ => st;
  lambda_lr := fun opt _ _ _ => opt;
  get_dataset := fun _ _ =>
    Ok ([(([[1%Q]], [[0%Q]], [[0%Q]]), [1; 2; 3; 0; 0; 0; 1]%R)], []);
  data_loader := fun rng ds => (map (fun s => [s]) ds, S rng);
  checkpoint_file := fun p => p;
  isfile := fun _ => false;
  torch_load := fun _ => Raise ValueError;
  rng_next := fun rng => (rng, S rng);
  look_at_view_transform := fun e at_ up => Ok (e, at_, up)
|}.

Definition toy_cfg : Cfg := {|
  data := {| fov_degree := 180%Q; image_shape := [1; 1]%Z; traj_data_root := "" |};
  training := {| batch_size := 1; num_epochs := 1; lr := 1%Q;
                 lr_scheduler_gamma := 1%Q; lr_scheduler_step_size := 1%Q;
                 checkpoint_path := ""; checkpoint_interval := 1;
                 render_interval := 1; resume := false |};
  implicit_function := {| type := "grid"; options := [] |};
  cfg_sampler := {| type := "stratified"; options := [] |};
  cfg_renderer := {| type := "volume"; options := [] |};
  debug := false;
  vis_style := "random_pose"
|}.

(** A model with a 2 x 2 sensor. *)
Definition toy_camera : CameraModel :=
  LinearSphere 180%Q {| ss_H := 2; ss_W := 2 |} false false.

Definition toy_model : Model := {|
  camera_model := toy_camera;
  valid_mask := one_pixel_mask toy_camera;
  X_ned_cam := [[0; 0; 1; 0]; [1; 0; 0; 0]; [0; 1; 0; 0]; [0; 0; 0; 1]]%Z;
  sampler := tt;
  renderer := tt
|}.

Definition toy_world : world :=
  World (0 : Volume) (0 : Optimizer) true (0 : Rng) [].

Definition toy_sample : GtImage * Pose :=
  (([[1%Q]], [[0%Q]], [[0%Q]]), [1; 2; 3; 0; 0; 0; 1]%R).

(** A 1 x 1 image whose only pixel is (0, 1/2, 0). *)
Definition toy_grey_image : GtImage := ([[0%Q]], [[(1 # 2)%Q]], [[0%Q]]).

Definition toy_pose : Pose := [1; 2; 3; 0; 0; 0; 1]%R.

(** The angles of a 20-frame turn, as [np.linspace] computes them. *)
Definition toy_angles : list R :=
  match Numpy.linspace 0 (2 * PI) (20 + 1) with
  | Ok thetas => Numpy.drop_last thetas
  | Raise _ => []
  end.

(** The model [Model(toy_cfg)] builds. *)
Definition toy_trained_model : Model := {|
  camera_model := model_camera toy_cfg;
  valid_mask := get_valid_mask (model_camera toy_cfg);
  X_ned_cam := [[0; 0; 1; 0]; [1; 0; 0; 0]; [0; 1; 0; 0]; [0; 0; 0; 1]]%Z;
  sampler := tt;
  renderer := tt
|}.

(** The world a run of [train toy_cfg] ends in. *)
Definition toy_train_world : world :=
  World (1 : Volume) (1 : Optimizer) true (2 : Rng)
    ([EvGetValidMask (model_camera toy_cfg); EvCuda; EvTrainMode]
     ++ iteration_events toy_cfg toy_trained_model [1; 1]%Z [(0, 0)%Z] toy_pose
     ++ [EvLrSchedulerStep]).

(** The events of the 20 frames rendered around [toy_pose]. *)
Definition toy_render_events : list event :=
  flat_map (fun theta =>
              frame_events toy_model [(0, 0)%Z] (frame_pose (take 3 toy_pose) theta)
                false false "" theta)
    toy_angles.


(** The world epoch 1 of training [toy_model] on [toy_sample] ends in. *)
Definition toy_epoch_world : world :=
  World (1 : Volume) (1 : Optimizer) true (3 : Rng)
    (iteration_events toy_cfg toy_model [1; 1]%Z [(0, 0)%Z] toy_pose
     ++ [EvLrSchedulerStep; EvPrint] ++ toy_render_events ++ [EvMimsave 1 20]).

(** Variants of [toy_cfg]. *)
Definition toy_cfg_with (style volume_type ckpt : string) (render_every : Z)
    (resuming : bool) : Cfg := {|
  data := data toy_cfg;
  training := {| batch_size := 1; num_epochs := 1; lr := 1%Q;
                 lr_scheduler_gamma := (1 # 2)%Q; lr_scheduler_step_size := 10%Q;
                 checkpoint_path := ckpt; checkpoint_interval := 1;
                 render_interval := render_every; resume := resuming |};
  implicit_function := {| type := volume_type; options := [] |};
  cfg_sampler := cfg_sampler toy_cfg;
  cfg_renderer := cfg_renderer toy_cfg;
  debug := false;
  vis_style := style
|}.

(** The same collaborators with a checkpoint on disk: epoch 3, volume 7,
    optimiser state 9. *)
Definition toy_resuming : Externals := {|
  RayBundle := @RayBundle toy;
  Volume := @Volume toy;
  Sampler := @Sampler toy;
  Renderer := @Renderer toy;
  ParamTensor := @ParamTensor toy;
  Grad := @Grad toy;
  Optimizer := @Optimizer toy;
  Rng := @Rng toy;
  PixelXys := @PixelXys toy;
  LookAt := @LookAt toy;
  get_valid_mask := @get_valid_mask toy;
  get_random_pixels_from_image := @get_random_pixels_from_image toy;
  get_pixels_from_image := @get_pixels_from_image toy;
  get_rays_from_pixels := @get_rays_from_pixels toy;
  to_float32 := @to_float32 toy;
  volume_dict := @volume_dict toy;
  sampler_dict := @sampler_dict toy;
  renderer_dict := @renderer_dict toy;
  renderer_call := @renderer_call toy;
  parameters := @parameters toy;
  loss_gradient := @loss_gradient toy;
  optimizer_step := @optimizer_step toy;
  lr_scheduler_step := @lr_scheduler_step toy;
  adam := @adam toy;
  optimizer_load_state_dict := @optimizer_load_state_dict toy;
  lambda_lr := @lambda_lr toy;
  get_dataset := @get_dataset toy;
  data_loader := @data_loader toy;
  checkpoint_file := @checkpoint_file toy;
  isfile := fun _ => true;
  torch_load := fun _ => Ok (7, 9, 3%Z);
  rng_next := @rng_next toy;
  look_at_view_transform := @look_at_view_transform toy
|}.

Definition toy_resume_cfg : Cfg := toy_cfg_with "random_pose" "grid" "ckpt" 1 true.

Definition toy_resumed_world : @world toy_resuming :=
  @World toy_resuming 7 9 true 0
    [EvGetValidMask (model_camera toy_resume_cfg); EvCuda; EvTrainMode; EvMakedirs;
     EvPrint; EvLoadStateDict; EvPrint].

(** An installation that exports every name the two files import. *)
Definition toy_installed : Imports.installed := fun _ =>
  Some (list_to_set
          ["Rotation"; "PerspectiveCameras"; "look_at_view_transform";
           "get_pixels_from_image"; "get_rays_from_pixels"; "DictConfig"; "volume_dict";
           "get_random_pixels_from_image"; "sample_images_at_xy"; "renderer_dict";
           "sampler_dict"; "LinearSphere"; "ShapeStruct"; "get_dataset";
           "trivial_collate"]).

Definition toy_resumed_model : @Model toy_resuming :=
  @Build_Model toy_resuming (model_camera toy_resume_cfg)
    (one_pixel_mask (model_camera toy_resume_cfg))
    [[0; 0; 1; 0]; [1; 0; 0; 0]; [0; 1; 0; 0]; [0; 0; 0; 1]]%Z tt tt.

Definition toy_blank_world : @world toy_resuming := @World toy_resuming 0 0 true 0 [].




End Fixture.

(* ===================================================================== *)
(** * Properties *)
(* ===================================================================== *)

Section CompositingFacts.
Import Compositing.
Local Open Scope R_scope.

Lemma Rsum_weights_from T als :
  Rsum (weights_from T als) = T * (1 - Rprod (map (fun a => 1 - a) als)).
Proof.
  revert T. induction als as [|a rest IH]; intros T; simpl.
  - lra.
  - rewrite IH. lra.
Qed.


Lemma opacity_eq ceiling sigmas deltas :
  opacity ceiling sigmas deltas
  = 1 - Rprod (map (fun a => 1 - a) (alphas ceiling sigmas deltas)).
Proof. unfold opacity, weights. rewrite Rsum_weights_from. lra. Qed.


Lemma Rprod_alphas_clamped ceiling sigmas deltas :
  length sigmas = length deltas ->
  Forall2 (fun s d => ceiling <= s * d) sigmas deltas ->
  Rprod (map (fun a => 1 - a) (alphas ceiling sigmas deltas))
  = exp (- (INR (length deltas) * ceiling)).
Proof.
  intros _ H. induction H as [|s d sigmas deltas Hsd _ IH].
  - simpl. rewrite Rmult_0_l, Ropp_0, exp_0. reflexivity.
  - cbn [alphas map Rprod fold_right length]. fold (Rprod (map (fun a => 1 - a) (alphas ceiling sigmas deltas))).
    rewrite IH. unfold alpha. rewrite Rmin_right by exact Hsd.
    rewrite S_INR.
    replace (1 - (1 - exp (- ceiling))) with (exp (- ceiling)) by lra.
    rewrite <- exp_plus. f_equal. lra.
Qed.

Lemma density_threshold ceiling deltas :
  Forall (fun d => 0 < d) deltas ->
  exists M, Forall (fun d => forall s, M <= s -> ceiling <= s * d) deltas.
Proof.
  induction 1 as [|d deltas Hd _ IH].
  - exists 0. constructor.
  - destruct IH as [M IH]. exists (Rmax M (ceiling / d)). constructor.
    + intros s Hs.
      assert (ceiling / d <= s) by (pose proof (Rmax_r M (ceiling / d)); lra).
      replace ceiling with (ceiling / d * d) by (field; lra).
      apply Rmult_le_compat_r; lra.
    + eapply Forall_impl; [exact IH|]. cbn. intros d' Hd' s Hs. apply Hd'.
      pose proof (Rmax_l M (ceiling / d)). lra.
Qed.


Lemma opacity_limit_clamped ceiling deltas :
  Forall (fun d => 0 < d) deltas ->
  opacity_tends_to ceiling deltas (1 - exp (- (INR (length deltas) * ceiling))).
Proof.
  intros Hpos eps Heps. destruct (density_threshold ceiling deltas Hpos) as [M HM].
  exists M. intros sigmas Hlen Hsig.
  rewrite opacity_eq, Rprod_alphas_clamped; [| exact Hlen |].
  - replace (_ - _) with 0 by lra. rewrite Rabs_R0. exact Heps.
  - clear Hpos. revert sigmas Hlen Hsig.
    induction HM as [|d deltas Hd _ IH]; intros [|s sigmas] Hlen Hsig;
      try discriminate; constructor.
    + apply Hd. inversion Hsig; subst; assumption.
    + apply IH; [simpl in Hlen; lia | inversion Hsig; subst; assumption].
Qed.




End CompositingFacts.



Section ArrayFacts.
Import Numpy.
Context {A : Type}.
Implicit Types (row : list A) (mrow : list bool) (img : list (list A))
  (mask : list (list bool)) (vals : list A).











Lemma zeros_ok (zero : A) (d0 d1 : Z) :
  (0 <= d0)%Z -> (0 <= d1)%Z ->
  zeros zero d0 d1 = Ok (repeat (repeat zero (Z.to_nat d1)) (Z.to_nat d0)).
Proof.
  intros H0 H1. unfold zeros.
  destruct (d0 <? 0)%Z eqn:E0; [apply Z.ltb_lt in E0; lia|].
  destruct (d1 <? 0)%Z eqn:E1; [apply Z.ltb_lt in E1; lia|]. reflexivity.
Qed.




Lemma same_shape_dims (B : Type) (a : list (list A)) (b : list (list B)) :
  same_shape a b = true <-> map length a = map length b.
Proof.
  revert b. induction a as [|ra a IH]; intros [|rb b]; simpl; try (split; congruence).
  rewrite andb_true_iff, Nat.eqb_eq, IH. split; [intros [-> ->]; reflexivity|].
  intros [= -> ->]. split; reflexivity.
Qed.


Lemma dims_repeat (zero : A) (n0 n1 : nat) :
  map length (repeat (repeat zero n1) n0) = repeat n1 n0.
Proof.
  induction n0 as [|n0 IH]; simpl; [reflexivity|]. now rewrite repeat_length, IH.
Qed.


Lemma masked_assign_total (zero : A) (n0 n1 : nat) mask vals :
  map length mask = repeat n1 n0 ->
  length vals = mask_count mask ->
  masked_assign (repeat (repeat zero n1) n0) mask vals
  = Ok (fill (repeat (repeat zero n1) n0) mask vals).
Proof.
  intros Hd Hl. unfold masked_assign.
  assert (Hs : same_shape (repeat (repeat zero n1) n0) mask = true).
  { apply same_shape_dims. rewrite dims_repeat. congruence. }
  rewrite Hs. simpl. apply Nat.eqb_eq in Hl. now rewrite Hl.
Qed.

Lemma nth_error_is_lookup (B : Type) (l : list B) (n : nat) : nth_error l n = l !! n.
Proof. revert n. induction l as [|x l IH]; intros [|n]; simpl; auto. Qed.

Lemma py_index_nonneg (B : Type) (l : list B) (i : Z) (b : B) :
  (0 <= i)%Z -> py_index l i = Ok b -> l !! Z.to_nat i = Some b.
Proof.
  intros Hi. unfold py_index.
  destruct (i <? 0)%Z eqn:E; [apply Z.ltb_lt in E; lia|].
  destruct ((0 <=? i)%Z && (i <? Z.of_nat (length l))%Z); [|discriminate].
  rewrite nth_error_is_lookup. destruct (l !! Z.to_nat i); [|discriminate].
  intros [= ->]. reflexivity.
Qed.

Lemma py_index_in_range (B : Type) (l : list B) (i : nat) (b : B) :
  l !! i = Some b -> py_index l (Z.of_nat i) = Ok b.
Proof.
  intros Hl. unfold py_index. pose proof (lookup_lt_Some _ _ _ Hl) as Hlt.
  destruct (Z.of_nat i <? 0)%Z eqn:E; [apply Z.ltb_lt in E; lia|].
  replace ((0 <=? Z.of_nat i)%Z && (Z.of_nat i <? Z.of_nat (length l))%Z) with true.
  2:{ symmetry. apply andb_true_iff. split; [apply Z.leb_le|apply Z.ltb_lt]; lia. }
  rewrite Nat2Z.id, nth_error_is_lookup, Hl. reflexivity.
Qed.

End ArrayFacts.

Section ImportFacts.
Import Imports.

Lemma find_installed_errors env : only_import_errors (find_installed env).
Proof.
  intros m e. unfold find_installed. destruct (env m); [discriminate|].
  intros [= <-]. reflexivity.
Qed.

Lemma import_names_errors m attrs names ns e :
  import_names m attrs names ns = Raise e -> is_import_error e = true.
Proof.
  revert ns. induction names as [|n rest IH]; intros ns; simpl; [discriminate|].
  destruct (decide (n ∈ attrs)); [apply IH|]. intros [= <-]. reflexivity.
Qed.

Lemma import_names_binds m attrs names ns ns' :
  import_names m attrs names ns = Ok ns' ->
  (forall x, x ∈ ns' -> x ∈ ns \/ x ∈ names) /\ (forall x, x ∈ names -> x ∈ attrs).
Proof.
  revert ns. induction names as [|n rest IH]; intros ns; simpl.
  - intros [= <-]. split; [auto|]. intros x Hx. inversion Hx.
  - destruct (decide (n ∈ attrs)) as [Hn|]; [|discriminate].
    intros Hok. destruct (IH _ Hok) as [H1 H2]. split.
    + intros x Hx. destruct (H1 x Hx) as [Hin|Hin];
        [|right; apply elem_of_cons; right; exact Hin].
      apply elem_of_union in Hin as [Hin|Hin]; [right|left; exact Hin].
      apply elem_of_singleton in Hin. subst. apply elem_of_cons. left. reflexivity.
    + intros x Hx. apply elem_of_cons in Hx as [->|Hx]; auto.
Qed.

Lemma exec_stmt_errors find as_main ns s e :
  only_import_errors find ->
  is_main_guard s = false ->
  exec_stmt find as_main ns s = Raise e -> is_import_error e = true.
Proof.
  intros Hfind Hs. destruct s as [m b|m names|n| |f]; simpl; try discriminate.
  - destruct (find m) eqn:Hm; simpl; [discriminate|]. intros [= <-]. eauto.
  - destruct (find m) as [attrs|e'] eqn:Hm; simpl.
    + destruct (import_names m attrs names ns) eqn:Hi; simpl; [discriminate|].
      intros [= <-]. eapply import_names_errors; eauto.
    + intros [= <-]. eauto.
Qed.

Lemma exec_module_errors find as_main stmts ns called e :
  only_import_errors find ->
  forallb (fun s => negb (is_main_guard s)) stmts = true ->
  exec_module find as_main stmts ns called = Raise e -> is_import_error e = true.
Proof.
  intros Hfind. revert ns called.
  induction stmts as [|s rest IH]; intros ns called Hall; simpl; [discriminate|].
  simpl in Hall. apply andb_true_iff in Hall as [Hs Hrest].
  destruct (exec_stmt find as_main ns s) as [[ns' c]|e'] eqn:Hx; simpl.
  - apply IH. exact Hrest.
  - intros [= <-]. eapply exec_stmt_errors; eauto.
    destruct (is_main_guard s); [discriminate|reflexivity].
Qed.

Lemma exec_stmt_binds find as_main ns s ns' c x :
  exec_stmt find as_main ns s = Ok (ns', c) ->
  x ∈ ns' -> x ∈ ns \/ x ∈ binds s.
Proof.
  destruct s as [m b|m names|n| |f]; simpl.
  - destruct (find m); simpl; [|discriminate]. intros [= <- <-] Hx.
    apply elem_of_union in Hx as [Hx|Hx]; [right|left; exact Hx].
    apply elem_of_singleton in Hx. subst. apply elem_of_cons. left. reflexivity.
  - destruct (find m) as [attrs|]; simpl; [|discriminate].
    destruct (import_names m attrs names ns) as [ns1|] eqn:Hi; simpl; [|discriminate].
    intros [= <- <-] Hx. eapply import_names_binds; eauto.
  - intros [= <- <-] Hx.
    apply elem_of_union in Hx as [Hx|Hx]; [right|left; exact Hx].
    apply elem_of_singleton in Hx. subst. apply elem_of_cons. left. reflexivity.
  - intros [= <- <-] Hx. left. exact Hx.
  - destruct as_main; [destruct (decide (f ∈ ns))|]; try discriminate;
      intros [= <- <-] Hx; left; exact Hx.
Qed.

Lemma exec_module_binds find as_main stmts ns called ns' called' x :
  exec_module find as_main stmts ns called = Ok (ns', called') ->
  x ∈ ns' -> x ∈ ns \/ x ∈ flat_map binds stmts.
Proof.
  revert ns called. induction stmts as [|s rest IH]; intros ns called; simpl.
  - intros [= <- <-] Hx. left. exact Hx.
  - destruct (exec_stmt find as_main ns s) as [[ns1 c]|] eqn:Hs; simpl; [|discriminate].
    intros Hrest Hx. destruct (IH _ _ Hrest Hx) as [Hin|Hin].
    + destruct (exec_stmt_binds _ _ _ _ _ _ _ Hs Hin) as [H1|H1]; [left; exact H1|].
      right. apply elem_of_app. left. exact H1.
    + right. apply elem_of_app. right. exact Hin.
Qed.

Lemma exec_module_app find as_main l1 l2 ns called :
  exec_module find as_main (l1 ++ l2) ns called
  = match exec_module find as_main l1 ns called with
    | Ok (ns', called') => exec_module find as_main l2 ns' called'
    | Raise e => Raise e
    end.
Proof.
  revert ns called. induction l1 as [|s rest IH]; intros ns called; simpl; [reflexivity|].
  destruct (exec_stmt find as_main ns s) as [[ns1 c]|]; simpl; [apply IH|reflexivity].
Qed.

(** Whenever utils/render.py loads, the names it binds do not include
    [render_images_in_poses]. *)
Lemma render_py_namespace env ns called :
  exec_module (find_installed env) false render_py ∅ None = Ok (ns, called) ->
  "render_images_in_poses" ∉ ns.
Proof.
  intros Hok Hin.
  destruct (exec_module_binds _ _ _ _ _ _ _ _ Hok Hin) as [H0|H1].
  - exact (not_elem_of_empty _ H0).
  - revert H1. vm_compute. intros H1.
    repeat (apply elem_of_cons in H1 as [H1|H1]; [discriminate|]).
    inversion H1.
Qed.

Lemma find_module_errors env : only_import_errors (find_module env).
Proof.
  intros m e. unfold find_module. destruct (String.eqb m "utils.render").
  - destruct (exec_module _ _ _ _ _) as [[ns c]|e'] eqn:Hx; simpl; [discriminate|].
    intros [= <-].
    eapply exec_module_errors; [apply find_installed_errors| |exact Hx]. reflexivity.
  - apply find_installed_errors.
Qed.

Lemma import_from_render_fails env as_main ns :
  exists e,
    exec_module (find_module env) as_main
      [SFromImport "utils.render"
         ["create_surround_cameras"; "render_images"; "render_images_in_poses"]]
      ns None = Raise e
    /\ is_import_error e = true.
Proof.
  cbn [exec_module exec_stmt]. unfold find_module at 1.
  replace (String.eqb "utils.render" "utils.render") with true by reflexivity.
  destruct (exec_module (find_installed env) false render_py ∅ None)
    as [[nsr c]|e] eqn:Hr.
  - cbn [mbind result_bind import_names].
    destruct (decide ("create_surround_cameras" ∈ nsr));
      [|eexists; split; reflexivity].
    destruct (decide ("render_images" ∈ nsr)); [|eexists; split; reflexivity].
    destruct (decide ("render_images_in_poses" ∈ nsr)) as [Hin|];
      [|eexists; split; reflexivity].
    exfalso. exact (render_py_namespace _ _ _ Hr Hin).
  - exists e. split; [reflexivity|].
    eapply exec_module_errors; [apply find_installed_errors| |exact Hr]. reflexivity.
Qed.

Lemma load_run_py_fails env as_main :
  exists e, load_run_py env as_main = Raise e /\ is_import_error e = true.
Proof.
  unfold load_run_py.
  change run_py with (firstn 16 run_py ++ (firstn 1 (skipn 16 run_py) ++ skipn 17 run_py)).
  rewrite exec_module_app.
  destruct (exec_module (find_module env) as_main (firstn 16 run_py) ∅ None)
    as [[ns c]|e] eqn:Hpre.
  - rewrite exec_module_app.
    assert (Hc : c = None).
    { clear -Hpre. revert Hpre. generalize (∅ : gset string). generalize (find_module env).
      intros find ns0 Hpre. cbn [firstn run_py exec_module exec_stmt] in Hpre.
      repeat match type of Hpre with
             | context [find ?m] => destruct (find m); cbn [mbind result_bind] in Hpre;
                                    [|discriminate]
             | context [import_names ?m ?a ?l ?n] =>
                 destruct (import_names m a l n); cbn [mbind result_bind] in Hpre;
                 [|discriminate]
             end.
      congruence. }
    subst c.
    destruct (import_from_render_fails env as_main ns) as [e [He Hie]].
    change (firstn 1 (skipn 16 run_py)) with
      [SFromImport "utils.render"
         ["create_surround_cameras"; "render_images"; "render_images_in_poses"]].
    rewrite He. exists e. split; [reflexivity|exact Hie].
  - exists e. split; [reflexivity|].
    eapply exec_module_errors; [apply find_module_errors| |exact Hpre]. reflexivity.
Qed.

Lemma import_names_satisfied m attrs names ns :
  forallb (fun n => bool_decide (n ∈ attrs)) names = true ->
  exists ns', import_names m attrs names ns = Ok ns'
    /\ (forall x, x ∈ ns -> x ∈ ns') /\ (forall x, x ∈ names -> x ∈ ns').
Proof.
  revert ns. induction names as [|n rest IH]; intros ns; simpl.
  - intros _. exists ns. split; [reflexivity|]. split; [auto|]. intros x Hx. inversion Hx.
  - intros H. apply andb_true_iff in H as [Hn Hrest]. apply bool_decide_eq_true in Hn.
    destruct (decide (n ∈ attrs)); [|contradiction].
    destruct (IH ({[ n ]} ∪ ns) Hrest) as (ns' & -> & H1 & H2).
    exists ns'. split; [reflexivity|]. split.
    + intros x Hx. apply H1. apply elem_of_union. now right.
    + intros x Hx. apply elem_of_cons in Hx as [->|Hx]; [|auto].
      apply H1. apply elem_of_union. left. now apply elem_of_singleton.
Qed.

Lemma import_names_unsatisfied m attrs names ns :
  forallb (fun n => bool_decide (n ∈ attrs)) names = false ->
  exists e, import_names m attrs names ns = Raise e.
Proof.
  revert ns. induction names as [|n rest IH]; intros ns; simpl; [discriminate|].
  intros H. destruct (decide (n ∈ attrs)) as [Hn|Hn]; [|eauto].
  apply andb_false_iff in H as [H|H]; [|apply IH; exact H].
  apply bool_decide_eq_false in H. contradiction.
Qed.

Lemma exec_module_satisfied env as_main stmts ns called :
  forallb (fun s => negb (is_main_guard s)) stmts = true ->
  forallb (satisfiable env) stmts = true ->
  exists ns', exec_module (find_installed env) as_main stmts ns called = Ok (ns', called)
    /\ (forall x, x ∈ ns -> x ∈ ns') /\ (forall x, x ∈ flat_map binds stmts -> x ∈ ns').
Proof.
  revert ns. induction stmts as [|s rest IH]; intros ns Hg Hs; simpl.
  - exists ns. split; [reflexivity|]. split; [auto|]. intros x Hx. inversion Hx.
  - simpl in Hg, Hs. apply andb_true_iff in Hg as [Hg1 Hg2].
    apply andb_true_iff in Hs as [Hs1 Hs2].
    assert (Hstep : exists ns1, exec_stmt (find_installed env) as_main ns s = Ok (ns1, None)
              /\ (forall x, x ∈ ns -> x ∈ ns1) /\ (forall x, x ∈ binds s -> x ∈ ns1)).
    { destruct s as [m b|m names|n| |f]; simpl in *; try discriminate.
      - unfold find_installed. destruct (env m); [|discriminate]. simpl.
        eexists. split; [reflexivity|]. split; intros x Hx.
        + apply elem_of_union. now right.
        + apply elem_of_cons in Hx as [->|Hx]; [|inversion Hx].
          apply elem_of_union. left. now apply elem_of_singleton.
      - unfold find_installed. destruct (env m) as [attrs|]; [|discriminate]. simpl.
        destruct (import_names_satisfied m attrs names ns Hs1) as (ns1 & -> & H1 & H2).
        exists ns1. split; [reflexivity|]. split; assumption.
      - eexists. split; [reflexivity|]. split; intros x Hx.
        + apply elem_of_union. now right.
        + apply elem_of_cons in Hx as [->|Hx]; [|inversion Hx].
          apply elem_of_union. left. now apply elem_of_singleton.
      - exists ns. split; [reflexivity|]. split; [auto|]. intros x Hx. inversion Hx. }
    destruct Hstep as (ns1 & -> & H1 & H2). simpl.
    destruct (IH ns1 Hg2 Hs2) as (ns' & -> & H3 & H4).
    exists ns'. split; [reflexivity|]. split; [auto|].
    intros x Hx. apply elem_of_app in Hx as [Hx|Hx]; auto.
Qed.

Lemma exec_module_unsatisfied env as_main stmts ns called :
  forallb (satisfiable env) stmts = false ->
  exists e, exec_module (find_installed env) as_main stmts ns called = Raise e.
Proof.
  revert ns called. induction stmts as [|s rest IH]; intros ns called; simpl;
    [discriminate|].
  intros H.
  destruct (exec_stmt (find_installed env) as_main ns s) as [[ns1 c]|e] eqn:Hs;
    [|simpl; eauto].
  simpl. apply andb_false_iff in H as [H|H]; [|apply IH; exact H].
  exfalso. destruct s as [m b|m names|n| |f]; simpl in *; try discriminate.
  - unfold find_installed in Hs. destruct (env m); discriminate.
  - unfold find_installed in Hs. destruct (env m) as [attrs|]; [|discriminate].
    simpl in Hs. destruct (import_names_unsatisfied m attrs names ns H) as [e He].
    rewrite He in Hs. discriminate.
Qed.

Lemma exec_module_same_finder find1 find2 as_main stmts ns called :
  (forall s m, s ∈ stmts -> imported s = Some m -> find1 m = find2 m) ->
  exec_module find1 as_main stmts ns called = exec_module find2 as_main stmts ns called.
Proof.
  revert ns called. induction stmts as [|s rest IH]; intros ns called Hf; [reflexivity|].
  simpl.
  assert (Hs : exec_stmt find1 as_main ns s = exec_stmt find2 as_main ns s).
  { destruct s as [m b|m names|n| |f]; simpl; try reflexivity;
      rewrite (Hf _ m (list_elem_of_here _ _) eq_refl); reflexivity. }
  rewrite Hs. destruct (exec_stmt find2 as_main ns s) as [[ns1 c]|]; [|reflexivity].
  simpl. apply IH. intros s' m Hin. apply Hf. now apply list_elem_of_further.
Qed.

(** X13.  utils/render.py loads exactly when what is installed satisfies
    every import it makes; it then defines [create_surround_cameras] and
    [render_images], and no [render_images_in_poses]. *)
Theorem render_py_loads_iff (env : installed) :
  ((exists ns, exec_module (find_installed env) false render_py ∅ None = Ok (ns, None))
   <-> forallb (satisfiable env) render_py = true)
  /\ (forall ns called,
        exec_module (find_installed env) false render_py ∅ None = Ok (ns, called) ->
        "create_surround_cameras" ∈ ns /\ "render_images" ∈ ns
        /\ "render_images_in_poses" ∉ ns).
Proof.
  assert (Hload : forallb (satisfiable env) render_py = true ->
            exists ns, exec_module (find_installed env) false render_py ∅ None = Ok (ns, None)
              /\ "create_surround_cameras" ∈ ns /\ "render_images" ∈ ns).
  { intros Hs.
    destruct (exec_module_satisfied env false render_py ∅ None eq_refl Hs)
      as (ns & Hok & _ & Hb).
    exists ns. split; [exact Hok|].
    split; apply Hb; vm_compute; repeat first [apply list_elem_of_here | apply list_elem_of_further]. }
  split.
  - split.
    + intros [ns Hok]. destruct (forallb (satisfiable env) render_py) eqn:Hs; [reflexivity|].
      destruct (exec_module_unsatisfied env false render_py ∅ None Hs) as [e He].
      rewrite He in Hok. discriminate.
    + intros Hs. destruct (Hload Hs) as (ns & Hok & _). eauto.
  - intros ns called Hok.
    split; [|split; [|eapply render_py_namespace; exact Hok]].
    + destruct (forallb (satisfiable env) render_py) eqn:Hs.
      * destruct (Hload eq_refl) as (ns' & Hok' & H1 & _).
        rewrite Hok' in Hok. injection Hok as <- _. exact H1.
      * destruct (exec_module_unsatisfied env false render_py ∅ None Hs) as [e He].
        rewrite He in Hok. discriminate.
    + destruct (forallb (satisfiable env) render_py) eqn:Hs.
      * destruct (Hload eq_refl) as (ns' & Hok' & _ & H2).
        rewrite Hok' in Hok. injection Hok as <- _. exact H2.
      * destruct (exec_module_unsatisfied env false render_py ∅ None Hs) as [e He].
        rewrite He in Hok. discriminate.
Qed.

(** X14.  When everything run.py and utils/render.py import from outside
    is installed, loading run.py stops exactly at line 23 with
    [ImportError]: the name [render_images_in_poses] cannot be imported
    from [utils.render]. *)
Theorem run_py_fails_on_render_images_in_poses (env : installed) (as_main : bool) :
  forallb (satisfiable env) run_py_head = true ->
  forallb (satisfiable env) render_py = true ->
  load_run_py env as_main = Raise (ImportError "utils.render" "render_images_in_poses").
Proof.
  intros Hhead Hrender. unfold load_run_py.
  change run_py with (run_py_head ++ (firstn 1 (skipn 16 run_py) ++ skipn 17 run_py)).
  rewrite exec_module_app.
  rewrite (exec_module_same_finder (find_module env) (find_installed env)).
  2:{ intros s m Hs Hm. unfold find_module.
      destruct (String.eqb m "utils.render") eqn:E; [|reflexivity].
      exfalso. apply String.eqb_eq in E. subst m. revert Hs. vm_compute.
      intros Hs.
      repeat (apply elem_of_cons in Hs as [->|Hs]; [discriminate Hm|]).
      inversion Hs. }
  destruct (exec_module_satisfied env as_main run_py_head ∅ None eq_refl Hhead)
    as (ns & -> & _). rewrite exec_module_app.
  change (firstn 1 (skipn 16 run_py)) with
    [SFromImport "utils.render"
       ["create_surround_cameras"; "render_images"; "render_images_in_poses"]].
  cbn [exec_module exec_stmt]. unfold find_module at 1.
  replace (String.eqb "utils.render" "utils.render") with true by reflexivity.
  destruct (exec_module_satisfied env false render_py ∅ None eq_refl Hrender)
    as (nsr & Hok & _ & Hb).
  rewrite Hok. cbn [mbind result_bind import_names].
  assert (H1 : "create_surround_cameras" ∈ nsr).
  { apply Hb. vm_compute. repeat first [apply list_elem_of_here | apply list_elem_of_further]. }
  assert (H2 : "render_images" ∈ nsr).
  { apply Hb. vm_compute. repeat first [apply list_elem_of_here | apply list_elem_of_further]. }
  pose proof (render_py_namespace _ _ _ Hok) as H3.
  destruct (decide ("create_surround_cameras" ∈ nsr)); [|contradiction].
  destruct (decide ("render_images" ∈ nsr)); [|contradiction].
  destruct (decide ("render_images_in_poses" ∈ nsr)); [contradiction|]. reflexivity.
Qed.

End ImportFacts.

(** C8.  Loading run.py always stops with an import error, whatever is
    installed and whether it is run as a script or imported: the statement
    [from utils.render import ..., render_images_in_poses] cannot succeed,
    because utils/render.py, when it loads at all, defines only the
    functions [create_surround_cameras] and [render_images] and binds no
    name [render_images_in_poses].  So running the script never reaches an
    entry point. *)
Theorem run_py_import_always_fails (env : Imports.installed) :
  (forall as_main, exists e,
      Imports.load_run_py env as_main = Raise e /\ is_import_error e = true)
  /\ (forall cfg_type, exists e,
      Imports.run_script env cfg_type = Raise e /\ is_import_error e = true)
  /\ flat_map (fun s => match s with Imports.SDef n => [n] | _ => [] end)
        Imports.render_py
      = ["create_surround_cameras"; "render_images"]
  /\ match Imports.exec_module (Imports.find_installed env) false Imports.render_py ∅ None with
     | Ok (ns, _) => "render_images_in_poses" ∉ ns
     | Raise e => is_import_error e = true
     end.
Proof.
  split; [|split; [|split]].
  - intros as_main. apply load_run_py_fails.
  - intros cfg_type. unfold Imports.run_script.
    destruct (load_run_py_fails env true) as [e [He Hie]].
    rewrite He. exists e. split; [reflexivity|exact Hie].
  - reflexivity.
  - destruct (Imports.exec_module _ _ _ _ _) as [[ns c]|e] eqn:Hr.
    + eapply render_py_namespace; eauto.
    + eapply exec_module_errors; [apply find_installed_errors| |exact Hr]. reflexivity.
Qed.

Section Binary64Facts.
Local Open Scope Z_scope.




End Binary64Facts.

Section ProgramFacts.
Context `{Ext : Externals}.

Lemma logs_logs es1 es2 w : logs es2 (logs es1 w) = logs (es1 ++ es2) w.
Proof. unfold logs. simpl. now rewrite app_assoc. Qed.

Lemma logs_nil w : logs [] w = w.
Proof. destruct w. unfold logs. simpl. now rewrite app_nil_r. Qed.

Lemma poses_used_app t1 t2 : poses_used (t1 ++ t2) = poses_used t1 ++ poses_used t2.
Proof. apply flat_map_app. Qed.

Lemma masks_used_app t1 t2 : masks_used (t1 ++ t2) = masks_used t1 ++ masks_used t2.
Proof. apply flat_map_app. Qed.

Lemma forward_modes_app t1 t2 :
  forward_modes (t1 ++ t2) = forward_modes t1 ++ forward_modes t2.
Proof. apply flat_map_app. Qed.

Lemma count_events_app p t1 t2 :
  count_events p (t1 ++ t2) = count_events p t1 + count_events p t2.
Proof. unfold count_events. now rewrite List.filter_app, length_app. Qed.

Ltac run_M :=
  unfold mbind, M_bind, mret, M_ret, emit, lift, get_world, modify, raise;
  cbn beta iota.

Ltac split_M H :=
  repeat (match type of H with
          | context [match ?r with _ => _ end] =>
              lazymatch r with
              | context [match _ with _ => _ end] => fail
              | _ => destruct r eqn:?
              end
          end; cbn beta iota in H; try discriminate H).

Lemma bind_Ok {A B} (m : M A) (k : A -> M B) w b w' :
  (m ≫= k) w = Ok (b, w') ->
  exists a w1, m w = Ok (a, w1) /\ k a w1 = Ok (b, w').
Proof.
  unfold mbind, M_bind. destruct (m w) as [[a w1]|e]; [|discriminate].
  intros Hk. exists a, w1. split; [reflexivity|exact Hk].
Qed.

Lemma render_frame_Ok model translation save file_prefix theta w img w' :
  render_frame model translation save file_prefix theta w = Ok (img, w') ->
  exists pixel_coords pixel_xys rays out,
    get_pixels_from_image (camera_model model) (valid_mask model) true
      = Ok (pixel_coords, pixel_xys)
    /\ get_rays_from_pixels pixel_coords (camera_model model) (X_ned_cam model)
         (frame_pose translation theta) false = Ok rays
    /\ renderer_call (renderer model) (sampler model) (w_implicit_fn w) (to_float32 rays)
       = Ok out
    /\ assemble_image model out = Ok img
    /\ w' = logs (frame_events model pixel_coords (frame_pose translation theta)
                    (w_grad_enabled w) save file_prefix theta) w.
Proof.
  unfold render_frame, forward. run_M. intros H. split_M H;
    injection H as <- <-; subst;
    do 4 eexists;
    (split; [reflexivity|]); (split; [eassumption|]); (split; [eassumption|]);
    (split; [eassumption|]);
    unfold logs, log, frame_events, frame_pose; simpl;
    rewrite <- ?app_assoc; reflexivity.
Qed.

Lemma render_frame_total model translation save file_prefix theta w
    pixel_coords pixel_xys rays out img :
  get_pixels_from_image (camera_model model) (valid_mask model) true
    = Ok (pixel_coords, pixel_xys) ->
  get_rays_from_pixels pixel_coords (camera_model model) (X_ned_cam model)
    (frame_pose translation theta) false = Ok rays ->
  renderer_call (renderer model) (sampler model) (w_implicit_fn w) (to_float32 rays)
    = Ok out ->
  assemble_image model out = Ok img ->
  render_frame model translation save file_prefix theta w
  = Ok (img, logs (frame_events model pixel_coords (frame_pose translation theta)
                     (w_grad_enabled w) save file_prefix theta) w).
Proof.
  intros Hp Hr Ho Ha. unfold render_frame, forward. run_M.
  rewrite Hp. cbn beta iota. fold (frame_pose translation theta). rewrite Hr.
  cbn beta iota. simpl w_implicit_fn. rewrite Ho. cbn beta iota. rewrite Ha.
  destruct save; cbn beta iota; f_equal; f_equal;
    unfold logs, log, frame_events; simpl; rewrite <- ?app_assoc; reflexivity.
Qed.

Lemma render_loop_Ok model translation save file_prefix thetas acc w imgs w' :
  render_loop model translation save file_prefix thetas acc w = Ok (imgs, w') ->
  exists frames evs,
    imgs = acc ++ frames /\ w' = logs evs w
    /\ frames_run model translation (w_grad_enabled w) save file_prefix thetas frames evs.
Proof.
  revert acc w. induction thetas as [|theta thetas IH]; intros acc w.
  - cbn. intros [= <- <-]. exists [], []. rewrite app_nil_r, logs_nil.
    repeat split. constructor.
  - cbn [render_loop]. intros H. apply bind_Ok in H as (img & w1 & Hf & Hrest).
    apply render_frame_Ok in Hf as (pc & xy & rays & out & _ & _ & _ & Ha & ->).
    apply IH in Hrest as (frames & evs & -> & -> & Hrun).
    exists (img :: frames), (frame_events model pc (frame_pose translation theta)
                               (w_grad_enabled w) save file_prefix theta ++ evs).
    rewrite <- app_assoc, logs_logs. repeat split.
    econstructor; eauto.
Qed.

Lemma frames_run_length model translation grad save file_prefix thetas imgs evs :
  frames_run model translation grad save file_prefix thetas imgs evs ->
  length imgs = length thetas.
Proof. induction 1; simpl; congruence. Qed.

Lemma frames_run_poses model translation grad save file_prefix thetas imgs evs :
  frames_run model translation grad save file_prefix thetas imgs evs ->
  poses_used evs = map (frame_pose translation) thetas.
Proof.
  induction 1 as [|theta thetas pc out img imgs evs _ _ IH]; [reflexivity|].
  rewrite poses_used_app, IH. unfold frame_events. rewrite poses_used_app.
  destruct save; reflexivity.
Qed.

Lemma frames_run_masks model translation grad save file_prefix thetas imgs evs :
  frames_run model translation grad save file_prefix thetas imgs evs ->
  Forall (fun m => m = valid_mask model) (masks_used evs)
  /\ count_events is_get_valid_mask evs = 0.
Proof.
  induction 1 as [|theta thetas pc out img imgs evs _ _ [IH1 IH2]].
  - split; [constructor|reflexivity].
  - rewrite masks_used_app, count_events_app, IH2. split.
    + apply Forall_app. split; [|exact IH1]. unfold frame_events.
      rewrite masks_used_app. destruct save; repeat constructor.
    + unfold frame_events. rewrite count_events_app. destruct save; reflexivity.
Qed.

Lemma frames_run_modes model translation grad save file_prefix thetas imgs evs :
  frames_run model translation grad save file_prefix thetas imgs evs ->
  Forall (fun g => g = grad) (forward_modes evs).
Proof.
  induction 1 as [|theta thetas pc out img imgs evs _ _ IH]; [constructor|].
  rewrite forward_modes_app. apply Forall_app. split; [|exact IH].
  unfold frame_events. rewrite forward_modes_app. destruct save; repeat constructor.
Qed.

Lemma frames_run_images model translation grad save file_prefix thetas imgs evs :
  frames_run model translation grad save file_prefix thetas imgs evs ->
  Forall (fun img => exists out, assemble_image model out = Ok img) imgs.
Proof. induction 1; constructor; eauto. Qed.

(** The angles of [np.linspace(0, 2 * np.pi, n + 1)[:-1]]. *)
Lemma drop_last_map_seq {B} (f : nat -> B) (n : nat) :
  Numpy.drop_last (map f (seq 0 (S n))) = map f (seq 0 n).
Proof.
  unfold Numpy.drop_last. rewrite seq_S, map_app. simpl.
  apply removelast_last.
Qed.

Lemma linspace_angles (n : Z) :
  (0 <= n)%Z ->
  exists thetas,
    Numpy.linspace 0 (2 * PI) (n + 1) = Ok thetas
    /\ Numpy.drop_last thetas
       = map (fun k : nat => (INR k * ((2 * PI - 0) / (IZR (n + 1) - 1)))%R)
           (seq 0 (Z.to_nat n)).
Proof.
  intros Hn. unfold Numpy.linspace.
  destruct (n + 1 <? 0)%Z eqn:E; [apply Z.ltb_lt in E; lia|].
  eexists. split; [reflexivity|].
  replace (Z.to_nat (n + 1)) with (S (Z.to_nat n)) by lia.
  rewrite drop_last_map_seq. apply map_ext. intros k. lra.
Qed.

Lemma angle_formula (n : Z) (k : nat) :
  (1 <= n)%Z ->
  (INR k * ((2 * PI - 0) / (IZR (n + 1) - 1)) = 2 * PI * INR k / IZR n)%R.
Proof.
  intros Hn. rewrite plus_IZR.
  assert (IZR n <> 0)%R by (apply not_0_IZR; lia).
  field. lra.
Qed.

Lemma render_images_Ok model translation num_images save file_prefix w imgs w' :
  (0 <= num_images)%Z ->
  render_images model translation num_images save file_prefix w = Ok (imgs, w') ->
  exists evs,
    w' = logs evs w
    /\ frames_run model translation (w_grad_enabled w) save file_prefix
         (map (fun k : nat => (INR k * ((2 * PI - 0) / (IZR (num_images + 1) - 1)))%R)
            (seq 0 (Z.to_nat num_images)))
         imgs evs.
Proof.
  intros Hn. unfold render_images. run_M. intros H.
  destruct (Numpy.py_index (parameters (w_implicit_fn w)) 0) as [dev|]; [|discriminate].
  cbn beta iota in H.
  destruct (linspace_angles num_images Hn) as (thetas & Hl & Hd).
  rewrite Hl in H. cbn beta iota in H. rewrite Hd in H.
  apply render_loop_Ok in H as (frames & evs & -> & -> & Hrun).
  exists evs. split; [reflexivity|exact Hrun].
Qed.


Lemma assemble_image_total model out :
  (0 <= ss_W (ss (camera_model model)))%Z ->
  (0 <= ss_H (ss (camera_model model)))%Z ->
  length (valid_mask model) = Z.to_nat (ss_W (ss (camera_model model))) ->
  Forall (fun row => length row = Z.to_nat (ss_H (ss (camera_model model))))
    (valid_mask model) ->
  length (feature out) = Numpy.mask_count (valid_mask model) ->
  exists img, assemble_image model out = Ok img.
Proof.
  intros HW HH Hl Hrows Hf. unfold assemble_image.
  rewrite (zeros_ok _ _ _ HW HH). unfold mbind, result_bind.
  rewrite masked_assign_total; [eexists; reflexivity| |exact Hf].
  rewrite <- Hl. clear Hl Hf. induction Hrows as [|row rows Hr _ IH]; simpl;
    [reflexivity|]. now rewrite Hr, IH.
Qed.

Lemma render_loop_total model translation save file_prefix thetas acc w :
  collaborators_deliver model (w_implicit_fn w) ->
  exists imgs w', render_loop model translation save file_prefix thetas acc w
                  = Ok (imgs, w').
Proof.
  intros Hc. revert acc w Hc. induction thetas as [|theta thetas IH]; intros acc w Hc.
  - cbn. eauto.
  - pose proof Hc as (_ & HW & HH & Hl & Hrows & pc & xy & Hp & Hrays).
    destruct (Hrays (frame_pose translation theta)) as (rays & out & Hr & Ho & Hf).
    destruct (assemble_image_total model out HW HH Hl Hrows Hf) as [img Ha].
    cbn [render_loop]. unfold mbind at 1, M_bind at 1.
    rewrite (render_frame_total _ _ _ _ _ _ _ _ _ _ _ Hp Hr Ho Ha).
    apply IH. exact Hc.
Qed.

Lemma render_images_total model translation num_images save file_prefix w :
  (0 <= num_images)%Z ->
  collaborators_deliver model (w_implicit_fn w) ->
  exists imgs w', render_images model translation num_images save file_prefix w
                  = Ok (imgs, w').
Proof.
  intros Hn Hc. unfold render_images. run_M.
  destruct (parameters (w_implicit_fn w)) as [|p0 ps] eqn:Hp;
    [destruct Hc as [Hc _]; congruence|].
  cbn. destruct (linspace_angles num_images Hn) as (thetas & Hl & _).
  rewrite Hl. cbn beta iota. apply render_loop_total. exact Hc.
Qed.


(** C9.  A call [render_images(model, translation, n)] with [n >= 1] that
    returns, returns exactly [n] images; the pose of frame k (k = 0..n-1)
    is the given translation followed by the quaternion of the rotation
    about z by the number 2*pi*k/n read as degrees, so every rotation
    angle stays below 2*pi degrees, which is less than a full turn.  The
    call does return when the collaborators deliver. *)
Theorem render_images_poses model translation (n : Z) save file_prefix w :
  (1 <= n)%Z ->
  (forall imgs w',
      render_images model translation n save file_prefix w = Ok (imgs, w') ->
      length imgs = Z.to_nat n
      /\ exists evs,
           w' = logs evs w
           /\ poses_used evs
              = map (fun k : nat =>
                       translation
                       ++ [0; 0; sin (Scipy.deg2rad (frame_angle n k) / 2);
                           cos (Scipy.deg2rad (frame_angle n k) / 2)]%R)
                  (seq 0 (Z.to_nat n)))
  /\ (forall k : nat, k < Z.to_nat n ->
        (0 <= Scipy.deg2rad (frame_angle n k) < Scipy.deg2rad (2 * PI))%R)
  /\ (Scipy.deg2rad (2 * PI) < 2 * PI)%R
  /\ (collaborators_deliver model (w_implicit_fn w) ->
      exists imgs w', render_images model translation n save file_prefix w
                      = Ok (imgs, w')).
Proof.
  intros Hn. split; [|split; [|split]].
  - intros imgs w' H. apply render_images_Ok in H as (evs & -> & Hrun); [|lia].
    split.
    + rewrite (frames_run_length _ _ _ _ _ _ _ _ Hrun), length_map, length_seq.
      reflexivity.
    + exists evs. split; [reflexivity|].
      rewrite (frames_run_poses _ _ _ _ _ _ _ _ Hrun), map_map.
      apply map_ext. intros k. unfold frame_pose, Scipy.from_euler_z, frame_angle.
      simpl. rewrite angle_formula by exact Hn. reflexivity.
  - intros k Hk. unfold Scipy.deg2rad, frame_angle.
    pose proof PI_RGT_0 as Hpi.
    assert (Hn' : (0 < IZR n)%R) by (apply IZR_lt; lia).
    assert (Hk0 : (0 <= INR k)%R) by apply pos_INR.
    assert (Hkn : (INR k < IZR n)%R).
    { rewrite INR_IZR_INZ. apply IZR_lt. lia. }
    assert (Hq : (0 <= INR k / IZR n < 1)%R).
    { split.
      - apply Rmult_le_pos; [exact Hk0|]. left. now apply Rinv_0_lt_compat.
      - apply (Rmult_lt_reg_r (IZR n)); [exact Hn'|].
        unfold Rdiv. rewrite Rmult_assoc, Rinv_l by lra. lra. }
    replace (2 * PI * INR k / IZR n * PI / 180)%R
      with (2 * PI * PI / 180 * (INR k / IZR n))%R by (field; lra).
    replace (2 * PI * PI / 180)%R with (2 * PI * PI / 180 * 1)%R at 3 by lra.
    assert (Hc : (0 < 2 * PI * PI / 180)%R) by nra.
    split; [apply Rmult_le_pos; lra|].
    apply Rmult_lt_compat_l; lra.
  - unfold Scipy.deg2rad. pose proof PI_RGT_0. pose proof PI_4. nra.
  - intros Hc. apply render_images_total; [lia|exact Hc].
Qed.











Lemma sample_image_Ok image pixel_coords gt :
  sample_image image pixel_coords = Ok gt ->
  Forall2 (fun xy c => sample_pixel image xy = Ok c) pixel_coords gt.
Proof.
  revert gt. induction pixel_coords as [|xy rest IH]; intros gt; simpl.
  - intros [= <-]. constructor.
  - unfold mbind, result_bind.
    destruct (sample_pixel image xy) as [c|] eqn:Hc; [|discriminate].
    destruct (sample_image image rest) as [cs|]; [|discriminate].
    intros [= <-]. constructor; [exact Hc|]. apply IH. reflexivity.
Qed.

Lemma train_iteration_Ok cfg model image_size batch seen w loss seen' w' :
  train_iteration cfg model image_size batch seen w = Ok ((loss, seen'), w') ->
  exists image pose pixel_coords pixel_xys rng rays rgb_gt out opt vol,
    Numpy.py_index batch 0 = Ok (image, pose)
    /\ get_random_pixels_from_image (w_rng w) (batch_size (training cfg)) image_size
         (camera_model model) (valid_mask model) = (Ok (pixel_coords, pixel_xys), rng)
    /\ get_rays_from_pixels pixel_coords (camera_model model) (X_ned_cam model) pose
         (debug cfg) = Ok rays
    /\ sample_image image pixel_coords = Ok rgb_gt
    /\ renderer_call (renderer model) (sampler model) (w_implicit_fn w) rays = Ok out
    /\ mse_loss (feature out) rgb_gt = Ok loss
    /\ w_grad_enabled w = true
    /\ optimizer_step (w_optimizer w) (w_implicit_fn w)
         (loss_gradient (renderer model) (sampler model) (w_implicit_fn w) rays rgb_gt)
       = (opt, vol)
    /\ seen' = set_add pose seen
    /\ w' = logs (iteration_events cfg model image_size pixel_coords pose)
              (set_optimizer opt (set_implicit_fn vol (set_rng rng w))).
Proof.
  unfold train_iteration, forward, show_debug, iteration_events. run_M.
  intros H. split_M H;
    cbn [w_implicit_fn w_optimizer w_grad_enabled w_rng log set_rng set_optimizer
         set_implicit_fn] in *;
    injection H as <- <- <-; subst;
    do 10 eexists;
    repeat (split; [first [eassumption | reflexivity]|]);
    unfold logs, set_optimizer, set_implicit_fn, set_rng; simpl;
    repeat match goal with
           | Hb : w_grad_enabled _ = _ |- _ => rewrite Hb; clear Hb
           | Hb : debug _ = _ |- _ => rewrite Hb; clear Hb
           end;
    rewrite <- ?app_assoc; reflexivity.
Qed.


Lemma random_sample_one_Ok {B} (population : list B) w b w' :
  random_sample_one population w = Ok (b, w') ->
  b ∈ population /\ w' = set_rng (snd (rng_next (w_rng w))) w.
Proof.
  unfold random_sample_one. run_M. destruct (rng_next (w_rng w)) as [k rng]. simpl.
  rewrite nth_error_is_lookup.
  destruct (population !! (k mod length population)) as [b'|] eqn:Hl; [|discriminate].
  intros [= <- <-]. split; [|reflexivity].
  eapply list_elem_of_lookup_2. exact Hl.
Qed.

Lemma render_block_Ok cfg model epoch seen w w' :
  render_block cfg model epoch seen w = Ok (tt, w') ->
  w' = w
  \/ exists p imgs evs,
       vis_style cfg = "random_pose"
       /\ p ∈ seen
       /\ frames_run model (take 3 p) false false "" training_angles imgs evs
       /\ w' = logs ([EvPrint] ++ evs ++ [EvMimsave epoch (length imgs)])
                 (set_rng (snd (rng_next (w_rng w))) w).
Proof.
  unfold render_block. intros H. apply bind_Ok in H as (due & w1 & Hdue & H).
  assert (w1 = w) as ->.
  { revert Hdue. unfold lift. destruct (divides _ _); [|discriminate]. now intros [= _ <-]. }
  destruct (due && (0 <? epoch)%Z); [|left; revert H; run_M; now intros [= <-]].
  right. unfold no_grad in H.
  match type of H with
  | match ?body ?w0 with _ => _ end = _ => destruct (body w0) as [[[] w2]|] eqn:Hbody
  end; [|discriminate].
  injection H as <-.
  apply bind_Ok in Hbody as (test_images & w3 & Hfirst & Hbody).
  destruct (String.eqb (vis_style cfg) "random_pose") eqn:Hstyle.
  - apply String.eqb_eq in Hstyle.
    apply bind_Ok in Hfirst as (p & w4 & Hp & Hfirst).
    apply random_sample_one_Ok in Hp as (Hin & ->).
    apply bind_Ok in Hfirst as ([] & w5 & Hprint & Hfirst).
    revert Hprint. unfold emit. intros [= <-].
    apply bind_Ok in Hfirst as (imgs & w6 & Hr & Hfirst).
    apply render_images_Ok in Hr as (evs & -> & Hrun); [|lia].
    revert Hfirst. run_M. intros [= <- <-].
    apply bind_Ok in Hbody as (test_images & w7 & Hsecond & Hlast).
    rewrite Hstyle in Hsecond. change (String.eqb "random_pose" "trajectory") with false in Hsecond.
    revert Hsecond. run_M. intros [= <- <-].
    revert Hlast. unfold emit. intros [= <-].
    exists p, imgs, evs. repeat split; try assumption.
    destruct w. unfold logs, log, set_rng, set_grad_enabled. simpl.
    rewrite <- !app_assoc. reflexivity.
  - revert Hfirst. run_M. intros [= <- <-].
    apply bind_Ok in Hbody as (test_images & w7 & Hsecond & Hlast).
    destruct (String.eqb (vis_style cfg) "trajectory").
    + apply bind_Ok in Hsecond as (? & ? & _ & Hraise). discriminate Hraise.
    + revert Hsecond. run_M. intros [= <- <-]. discriminate Hlast.
Qed.

Lemma reuses_mask_app model e1 e2 :
  reuses_mask model e1 -> reuses_mask model e2 -> reuses_mask model (e1 ++ e2).
Proof.
  intros [H1 H2] [H3 H4]. split.
  - rewrite count_events_app. lia.
  - rewrite masks_used_app. apply Forall_app. split; assumption.
Qed.

Lemma summary_refl model w : summary model w w [].
Proof.
  split; [now rewrite app_nil_r|]. split; [reflexivity|].
  split; [split; [reflexivity|constructor]|]. reflexivity.
Qed.

Lemma summary_trans model w w1 w2 e1 e2 :
  summary model w w1 e1 -> summary model w1 w2 e2 -> summary model w w2 (e1 ++ e2).
Proof.
  intros (Ht1 & Hg1 & Hm1 & Hp1) (Ht2 & Hg2 & Hm2 & Hp2).
  split; [rewrite Ht2, Ht1; now rewrite app_assoc|].
  split; [congruence|]. split; [now apply reuses_mask_app|].
  rewrite count_events_app. intros Hc.
  rewrite Hp2, Hp1 by lia. reflexivity.
Qed.

Lemma frames_run_no_step model translation grad save file_prefix thetas imgs evs :
  frames_run model translation grad save file_prefix thetas imgs evs ->
  count_events is_optimizer_step evs = 0.
Proof.
  induction 1 as [|theta thetas pc out img imgs evs _ _ IH]; [reflexivity|].
  rewrite count_events_app, IH. unfold frame_events. rewrite count_events_app.
  destruct save; reflexivity.
Qed.

Lemma iteration_events_mask cfg model image_size pixel_coords pose :
  reuses_mask model (iteration_events cfg model image_size pixel_coords pose).
Proof.
  unfold iteration_events. split.
  - rewrite !count_events_app. destruct (debug cfg); reflexivity.
  - rewrite !masks_used_app. destruct (debug cfg); repeat constructor.
Qed.

Lemma train_iteration_summary cfg model image_size batch seen w loss seen' w' :
  train_iteration cfg model image_size batch seen w = Ok ((loss, seen'), w') ->
  exists evs, summary model w w' evs
    /\ Forall (fun g => g = true) (forward_modes evs)
    /\ forall P : Pose -> Prop,
         Forall (fun s => P (snd s)) batch -> Forall P seen ->
         Forall P (poses_used evs) /\ Forall P seen'.
Proof.
  intros H. apply train_iteration_Ok in H
    as (image & pose & pc & xy & rng & rays & gt & out & opt & vol
        & Hb & _ & _ & _ & _ & _ & Hg & _ & -> & ->).
  exists (iteration_events cfg model image_size pc pose). split; [|split].
  - split; [reflexivity|]. split; [reflexivity|].
    split; [apply iteration_events_mask|].
    unfold iteration_events. rewrite !count_events_app.
    destruct (debug cfg); simpl; discriminate.
  - unfold iteration_events. rewrite !forward_modes_app.
    destruct (debug cfg); repeat constructor.
  - intros P Hbatch Hseen.
    assert (HP : P pose).
    { apply (py_index_nonneg _ batch 0%Z) in Hb; [|lia].
      apply list_elem_of_lookup_2 in Hb.
      rewrite Forall_forall in Hbatch. apply (Hbatch _ Hb). }
    split.
    + unfold iteration_events. rewrite !poses_used_app.
      destruct (debug cfg); repeat constructor; exact HP.
    + unfold set_add. destruct (List.in_dec pose_eq_dec pose seen); [exact Hseen|].
      apply Forall_app. split; [exact Hseen|repeat constructor; exact HP].
Qed.

Lemma train_batches_summary cfg model image_size batches seen w seen' w' :
  train_batches cfg model image_size batches seen w = Ok (seen', w') ->
  exists evs, summary model w w' evs
    /\ Forall (fun g => g = true) (forward_modes evs)
    /\ forall P : Pose -> Prop,
         Forall (Forall (fun s => P (snd s))) batches -> Forall P seen ->
         Forall P (poses_used evs) /\ Forall P seen'.
Proof.
  revert seen w. induction batches as [|batch rest IH]; intros seen w.
  - cbn. intros [= <- <-]. exists []. split; [apply summary_refl|].
    split; [constructor|]. intros P _ Hseen. split; [constructor|exact Hseen].
  - cbn [train_batches]. intros H.
    apply bind_Ok in H as ([loss seen1] & w1 & Hit & Hrest).
    apply train_iteration_summary in Hit as (e1 & Hs1 & Hm1 & HP1).
    apply IH in Hrest as (e2 & Hs2 & Hm2 & HP2).
    exists (e1 ++ e2). split; [eapply summary_trans; eassumption|]. split.
    + rewrite forward_modes_app. apply Forall_app. split; assumption.
    + intros P Hb Hseen. apply Forall_cons in Hb as [Hb1 Hb2].
      destruct (HP1 P Hb1 Hseen) as [Hp1 Hseen1].
      destruct (HP2 P Hb2 Hseen1) as [Hp2 Hseen2].
      split; [|exact Hseen2]. rewrite poses_used_app. apply Forall_app.
      split; assumption.
Qed.

Lemma frames_run_summary model translation grad save file_prefix thetas imgs evs w :
  frames_run model translation grad save file_prefix thetas imgs evs ->
  summary model w (logs evs w) evs.
Proof.
  intros Hrun. split; [reflexivity|]. split; [reflexivity|].
  split; [split; apply (frames_run_masks _ _ _ _ _ _ _ _ Hrun)|]. reflexivity.
Qed.

Lemma render_block_summary cfg model epoch seen w w' :
  render_block cfg model epoch seen w = Ok (tt, w') ->
  exists evs,
    summary model w w' evs
    /\ w_implicit_fn w' = w_implicit_fn w
    /\ w_optimizer w' = w_optimizer w
    /\ count_events is_optimizer_step evs = 0
    /\ Forall (fun g => g = false) (forward_modes evs)
    /\ Forall (is_render_pose seen) (poses_used evs).
Proof.
  intros H. apply render_block_Ok in H as [->|(p & imgs & evs & _ & Hin & Hrun & ->)].
  - exists []. split; [apply summary_refl|]. repeat split; constructor.
  - exists ([EvPrint] ++ evs ++ [EvMimsave epoch (length imgs)]).
    pose proof (frames_run_masks _ _ _ _ _ _ _ _ Hrun) as [Hm1 Hm2].
    pose proof (frames_run_no_step _ _ _ _ _ _ _ _ Hrun) as Hns.
    split; [|split; [reflexivity|split; [reflexivity|split; [|split]]]].
    + split; [reflexivity|]. split; [reflexivity|]. split; [|reflexivity].
      split.
      * rewrite !count_events_app, Hm2. reflexivity.
      * rewrite !masks_used_app. simpl. rewrite app_nil_r. exact Hm1.
    + rewrite !count_events_app, Hns. reflexivity.
    + rewrite !forward_modes_app. simpl. rewrite app_nil_r.
      exact (frames_run_modes _ _ _ _ _ _ _ _ Hrun).
    + rewrite !poses_used_app. simpl. rewrite app_nil_r.
      rewrite (frames_run_poses _ _ _ _ _ _ _ _ Hrun).
      apply Forall_forall. intros pose Hpose.
      apply list_elem_of_fmap in Hpose as (theta & -> & _).
      exists p, theta. split; [exact Hin|reflexivity].
Qed.

Lemma train_epoch_Ok cfg model image_size train_dataset epoch seen w seen' w' :
  train_epoch cfg model image_size train_dataset epoch seen w = Ok (seen', w') ->
  exists w1,
    train_batches cfg model image_size (fst (data_loader (w_rng w) train_dataset)) seen
      (set_rng (snd (data_loader (w_rng w) train_dataset)) w) = Ok (seen', w1)
    /\ render_block cfg model epoch seen'
         (logs (epoch_end_events cfg epoch)
            (set_optimizer (lr_scheduler_step (w_optimizer w1)) w1)) = Ok (tt, w').
Proof.
  unfold train_epoch. intros H. apply bind_Ok in H as (w0 & w0' & Hw & H).
  revert Hw. unfold get_world. intros [= <- <-].
  destruct (data_loader (w_rng w) train_dataset) as [batches rng]. simpl.
  apply bind_Ok in H as ([] & w0 & Hset & H). revert Hset. unfold modify.
  intros [= <-].
  apply bind_Ok in H as (seen1 & w1 & Hb & H). exists w1.
  apply bind_Ok in H as ([] & w2 & He & H). revert He. unfold emit. intros [= <-].
  apply bind_Ok in H as ([] & w3 & Hm & H). revert Hm. unfold modify. intros [= <-].
  apply bind_Ok in H as (due & w4 & Hdue & H).
  revert Hdue. unfold lift, divides.
  destruct (checkpoint_interval (training cfg) =? 0)%Z; [discriminate|].
  intros [= <- <-].
  apply bind_Ok in H as ([] & w5 & Hck & H).
  apply bind_Ok in H as ([] & w6 & Hr & H).
  revert H. run_M. intros [= <- <-]. split; [exact Hb|].
  rewrite <- Hr. f_equal. unfold epoch_end_events.
  destruct ((epoch mod checkpoint_interval (training cfg) =? 0)%Z
            && (0 <? String.length (checkpoint_path (training cfg)))%nat
            && (0 <? epoch)%Z).
  - revert Hck. run_M. intros [= <-]. unfold logs, log, set_optimizer. simpl.
    rewrite <- ?app_assoc. reflexivity.
  - revert Hck. run_M. intros [= <-]. unfold logs, log, set_optimizer. simpl.
    rewrite <- ?app_assoc. reflexivity.
Qed.

Lemma train_epoch_summary cfg model image_size train_dataset epoch seen w seen' w' :
  train_epoch cfg model image_size train_dataset epoch seen w = Ok (seen', w') ->
  exists evs, summary model w w' evs.
Proof.
  intros H. apply train_epoch_Ok in H as (w1 & Hb & Hr).
  apply train_batches_summary in Hb as (e1 & Hs1 & _).
  apply render_block_summary in Hr as (e3 & Hs3 & _).
  exists (e1 ++ epoch_end_events cfg epoch ++ e3).
  eapply summary_trans; [|eapply summary_trans; [|exact Hs3]].
  - destruct Hs1 as (Ht & Hg & Hm & Hp). split; [exact Ht|]. split; [exact Hg|].
    split; [exact Hm|]. exact Hp.
  - split; [reflexivity|]. split; [reflexivity|]. split; [|reflexivity].
    unfold epoch_end_events. split.
    + rewrite count_events_app. destruct (_ && _ && _); reflexivity.
    + rewrite masks_used_app. destruct (_ && _ && _); constructor.
Qed.

Lemma train_epochs_summary cfg model image_size train_dataset epochs seen w w' :
  train_epochs cfg model image_size train_dataset epochs seen w = Ok (tt, w') ->
  exists evs, summary model w w' evs.
Proof.
  revert seen w. induction epochs as [|epoch rest IH]; intros seen w.
  - cbn. intros [= <-]. exists []. apply summary_refl.
  - cbn [train_epochs]. intros H. apply bind_Ok in H as (seen1 & w1 & He & H).
    apply train_epoch_summary in He as (e1 & Hs1).
    apply IH in H as (e2 & Hs2). exists (e1 ++ e2). eapply summary_trans; eassumption.
Qed.

Lemma Model_init_Ok cfg w model w' :
  Model_init cfg w = Ok (model, w') ->
  exists make_volume make_sampler make_renderer,
    volume_dict !! type (implicit_function cfg) = Some make_volume
    /\ sampler_dict !! type (cfg_sampler cfg) = Some make_sampler
    /\ renderer_dict !! type (cfg_renderer cfg) = Some make_renderer
    /\ model = {| camera_model := model_camera cfg;
                  valid_mask := get_valid_mask (model_camera cfg);
                  X_ned_cam := [[0; 0; 1; 0]; [1; 0; 0; 0]; [0; 1; 0; 0]; [0; 0; 0; 1]]%Z;
                  sampler := make_sampler (cfg_sampler cfg);
                  renderer := make_renderer (cfg_renderer cfg) |}
    /\ w' = logs [EvGetValidMask (model_camera cfg)]
              (set_implicit_fn (make_volume (implicit_function cfg)) w).
Proof.
  unfold Model_init, lookup_registry. run_M. intros H.
  destruct (volume_dict !! type (implicit_function cfg)) as [mv|]; [|discriminate].
  destruct (sampler_dict !! type (cfg_sampler cfg)) as [ms|]; [|discriminate].
  destruct (renderer_dict !! type (cfg_renderer cfg)) as [mr|]; [|discriminate].
  injection H as <- <-. exists mv, ms, mr. repeat split; reflexivity.
Qed.

Lemma Model_init_total cfg w make_volume make_sampler make_renderer :
  volume_dict !! type (implicit_function cfg) = Some make_volume ->
  sampler_dict !! type (cfg_sampler cfg) = Some make_sampler ->
  renderer_dict !! type (cfg_renderer cfg) = Some make_renderer ->
  exists model w', Model_init cfg w = Ok (model, w').
Proof.
  intros Hv Hs Hr. unfold Model_init, lookup_registry. run_M.
  rewrite Hv, Hs, Hr. eauto.
Qed.

Lemma create_model_Ok cfg w model start_epoch path w' :
  create_model cfg w = Ok ((model, start_epoch, path), w') ->
  exists w1 evs,
    Model_init cfg w = Ok (model, w1)
    /\ w_trace w' = w_trace w1 ++ evs
    /\ w_grad_enabled w' = w_grad_enabled w1
    /\ count_events is_get_valid_mask evs = 0
    /\ masks_used evs = [].
Proof.
  unfold create_model. intros H. apply bind_Ok in H as (m & w1 & Hinit & H).
  exists w1. revert H. run_M. intros H. split_M H;
    injection H as <- <- <- <-; eexists; (split; [exact Hinit|]);
    cbn [w_trace w_grad_enabled set_optimizer set_implicit_fn log];
    rewrite <- ?app_assoc; (split; [reflexivity|]); repeat split; reflexivity.
Qed.

Lemma train_Ok cfg w w' :
  train cfg w = Ok (tt, w') ->
  exists model w1 evs,
    Model_init cfg w = Ok (model, w1)
    /\ w_trace w' = w_trace w1 ++ evs
    /\ w_grad_enabled w' = w_grad_enabled w1
    /\ reuses_mask model evs.
Proof.
  unfold train. intros H.
  apply bind_Ok in H as (width & w0 & Hw & H).
  revert Hw. unfold lift. destruct (Numpy.py_index _ 1); [|discriminate].
  intros [= <- <-].
  apply bind_Ok in H as (height & w0 & Hh & H).
  revert Hh. unfold lift. destruct (Numpy.py_index _ 0); [|discriminate].
  intros [= <- <-].
  apply bind_Ok in H as ([[model start_epoch] path] & w2 & Hc & H).
  apply create_model_Ok in Hc as (w1 & e1 & Hinit & Ht1 & Hg1 & Hc1 & Hm1).
  apply bind_Ok in H as ([train_dataset val_dataset] & w3 & Hd & H).
  revert Hd. unfold lift. destruct (get_dataset _ _) as [[td vd]|]; [|discriminate].
  intros [= <- <- <-].
  apply train_epochs_summary in H as (e2 & Ht2 & Hg2 & [Hc2 Hm2] & _).
  exists model, w1, (e1 ++ e2). split; [exact Hinit|].
  split; [rewrite Ht2, Ht1; now rewrite app_assoc|].
  split; [congruence|]. split.
  - rewrite count_events_app. lia.
  - rewrite masks_used_app, Hm1. exact Hm2.
Qed.

Lemma render_images_frames model translation num_images save file_prefix w imgs w' :
  render_images model translation num_images save file_prefix w = Ok (imgs, w') ->
  exists thetas evs,
    w' = logs evs w
    /\ frames_run model translation (w_grad_enabled w) save file_prefix thetas imgs evs.
Proof.
  unfold render_images. run_M. intros H.
  destruct (Numpy.py_index (parameters (w_implicit_fn w)) 0) as [dev|]; [|discriminate].
  cbn beta iota in H.
  destruct (Numpy.linspace 0 (2 * PI) (num_images + 1)) as [thetas|]; [|discriminate].
  cbn beta iota in H.
  apply render_loop_Ok in H as (frames & evs & -> & -> & Hrun).
  exists (Numpy.drop_last thetas), evs. split; [reflexivity|exact Hrun].
Qed.

(** C2.  In every run of [train] the validity mask is computed exactly
    once, by the model's constructor and from the camera configuration
    alone (the configured field of view on a 256 x 256 sensor); it is the
    first thing the run does.  Every mask handed afterwards to the random
    pixel sampler, to the full-frame pixel enumeration or used to
    assemble an image is that stored mask.  A call of [render_images], on
    any model, likewise never recomputes the mask and uses the model's
    stored one throughout. *)
Theorem valid_mask_computed_once (cfg : Cfg) (w w' : world) :
  train cfg w = Ok (tt, w') ->
  (exists evs,
      w_trace w' = w_trace w ++ EvGetValidMask (model_camera cfg) :: evs
      /\ count_events is_get_valid_mask evs = 0
      /\ Forall (fun m => m = get_valid_mask (model_camera cfg)) (masks_used evs))
  /\ (forall model translation num_images save file_prefix w0 imgs w0',
        render_images model translation num_images save file_prefix w0 = Ok (imgs, w0') ->
        exists evs,
          w_trace w0' = w_trace w0 ++ evs
          /\ count_events is_get_valid_mask evs = 0
          /\ Forall (fun m => m = valid_mask model) (masks_used evs)).
Proof.
  intros H. split.
  - apply train_Ok in H as (model & w1 & evs & Hinit & Ht & _ & Hc & Hm).
    apply Model_init_Ok in Hinit as (mv & ms & mr & _ & _ & _ & -> & ->).
    exists evs. split; [|split; [exact Hc|exact Hm]].
    rewrite Ht. simpl. rewrite <- app_assoc. reflexivity.
  - intros model translation num_images save file_prefix w0 imgs w0' Hr.
    apply render_images_frames in Hr as (thetas & evs & -> & Hrun).
    exists evs. split; [reflexivity|].
    destruct (frames_run_masks _ _ _ _ _ _ _ _ Hrun) as [Hm Hc]. split; assumption.
Qed.

(** C3.  Whenever the model is constructed, its implicit volume, sampler
    and renderer are what the constructors registered in [volume_dict],
    [sampler_dict] and [renderer_dict] under the configuration's three
    [type] names build from the matching configuration nodes; the
    construction succeeds exactly when the three names are registered,
    and two configurations with the same three names select the same
    three constructors. *)
Theorem variants_come_from_registries (cfg : Cfg) (w : world) :
  (forall model w',
      Model_init cfg w = Ok (model, w') ->
      exists make_volume make_sampler make_renderer,
        volume_dict !! type (implicit_function cfg) = Some make_volume
        /\ sampler_dict !! type (cfg_sampler cfg) = Some make_sampler
        /\ renderer_dict !! type (cfg_renderer cfg) = Some make_renderer
        /\ w_implicit_fn w' = make_volume (implicit_function cfg)
        /\ sampler model = make_sampler (cfg_sampler cfg)
        /\ renderer model = make_renderer (cfg_renderer cfg))
  /\ ((exists model w', Model_init cfg w = Ok (model, w'))
      <-> is_Some (volume_dict !! type (implicit_function cfg))
          /\ is_Some (sampler_dict !! type (cfg_sampler cfg))
          /\ is_Some (renderer_dict !! type (cfg_renderer cfg)))
  /\ (forall cfg2 w2 model model2 w' w2',
        type (implicit_function cfg2) = type (implicit_function cfg) ->
        type (cfg_sampler cfg2) = type (cfg_sampler cfg) ->
        type (cfg_renderer cfg2) = type (cfg_renderer cfg) ->
        Model_init cfg w = Ok (model, w') ->
        Model_init cfg2 w2 = Ok (model2, w2') ->
        exists make_volume make_sampler make_renderer,
          w_implicit_fn w' = make_volume (implicit_function cfg)
          /\ w_implicit_fn w2' = make_volume (implicit_function cfg2)
          /\ sampler model = make_sampler (cfg_sampler cfg)
          /\ sampler model2 = make_sampler (cfg_sampler cfg2)
          /\ renderer model = make_renderer (cfg_renderer cfg)
          /\ renderer model2 = make_renderer (cfg_renderer cfg2)).
Proof.
  split; [|split].
  - intros model w' H.
    apply Model_init_Ok in H as (mv & ms & mr & Hv & Hs & Hr & -> & ->).
    exists mv, ms, mr. repeat split; assumption.
  - split.
    + intros (model & w' & H).
      apply Model_init_Ok in H as (mv & ms & mr & Hv & Hs & Hr & _).
      rewrite Hv, Hs, Hr. repeat split; eexists; reflexivity.
    + intros ([mv Hv] & [ms Hs] & [mr Hr]). eapply Model_init_total; eassumption.
  - intros cfg2 w2 model model2 w' w2' Ev Es Er H H2.
    apply Model_init_Ok in H as (mv & ms & mr & Hv & Hs & Hr & -> & ->).
    apply Model_init_Ok in H2 as (mv2 & ms2 & mr2 & Hv2 & Hs2 & Hr2 & -> & ->).
    rewrite Ev in Hv2. rewrite Es in Hs2. rewrite Er in Hr2.
    assert (mv2 = mv) by congruence. assert (ms2 = ms) by congruence.
    assert (mr2 = mr) by congruence. subst.
    exists mv, ms, mr. repeat split; reflexivity.
Qed.

Lemma sample_plane_at (plane : list (list Q)) (x y : Z) (q : Q) :
  (0 <= x)%Z -> (0 <= y)%Z ->
  sample_plane plane (x, y) = Ok q ->
  exists row, plane !! Z.to_nat y = Some row /\ row !! Z.to_nat x = Some q.
Proof.
  intros Hx Hy. unfold sample_plane. simpl. unfold mbind, result_bind.
  destruct (Numpy.py_index plane y) as [row|] eqn:Hrow; [|discriminate].
  intros Hq. exists row. split; eapply py_index_nonneg; eassumption.
Qed.

Lemma sq_err_sum_spec (input target : list rgb) :
  (Qsum (zip_with sq_err input target)
   == fold_right Qplus 0
        (zip_with (fun c c' : rgb =>
                     (c.1.1 - c'.1.1) ^ 2 + (c.1.2 - c'.1.2) ^ 2 + (c.2 - c'.2) ^ 2)
           input target))%Q.
Proof.
  revert target. induction input as [|[[r1 g1] b1] input IH]; intros [|[[r2 g2] b2] target];
    try reflexivity.
  cbn [zip_with Qsum fold_right]. fold (Qsum (zip_with sq_err input target)).
  rewrite IH. cbn [sq_err fst snd]. apply Qplus_comp; [|reflexivity].
  simpl. ring.
Qed.

(** C5.  In every training iteration that completes, the loss is
    [mse_loss] of the model's per-ray colours [out["feature"]] against
    the ground-truth colours [rgb_gt], where the rays were generated from
    the sampled pixel coordinates and [rgb_gt] holds, pixel for pixel, the
    colour of the batch's image at those same coordinates (row y, column
    x of each colour plane).  With one rendered colour per pixel, for
    N >= 1 pixels, the loss is a number: the sum over the pixels of the
    squared differences of the three colour components, divided by 3 N;
    for no pixel at all it is not a number. *)
Theorem loss_is_mse_at_sampled_pixels (cfg : Cfg) (model : Model) (image_size : list Z)
    (batch : list (GtImage * Pose)) (seen : list Pose) (w : world)
    (loss : option Q) (seen' : list Pose) (w' : world) :
  train_iteration cfg model image_size batch seen w = Ok ((loss, seen'), w') ->
  exists image pose pixel_coords pixel_xys rng rays out rgb_gt,
    Numpy.py_index batch 0 = Ok (image, pose)
    /\ get_random_pixels_from_image (w_rng w) (batch_size (training cfg)) image_size
         (camera_model model) (valid_mask model) = (Ok (pixel_coords, pixel_xys), rng)
    /\ get_rays_from_pixels pixel_coords (camera_model model) (X_ned_cam model) pose
         (debug cfg) = Ok rays
    /\ renderer_call (renderer model) (sampler model) (w_implicit_fn w) rays = Ok out
    /\ Forall2 (fun xy c => sample_pixel image xy = Ok c) pixel_coords rgb_gt
    /\ (forall (k : nat) x y r g b,
          pixel_coords !! k = Some (x, y) -> rgb_gt !! k = Some (r, g, b) ->
          (0 <= x)%Z -> (0 <= y)%Z ->
          exists row_r row_g row_b,
            image.1.1 !! Z.to_nat y = Some row_r /\ row_r !! Z.to_nat x = Some r
            /\ image.1.2 !! Z.to_nat y = Some row_g /\ row_g !! Z.to_nat x = Some g
            /\ image.2 !! Z.to_nat y = Some row_b /\ row_b !! Z.to_nat x = Some b)
    /\ mse_loss (feature out) rgb_gt = Ok loss
    /\ (length (feature out) = length pixel_coords ->
        loss = mean_sq_err (feature out) rgb_gt)
    /\ (length (feature out) = length pixel_coords -> pixel_coords <> [] ->
        exists q,
          loss = Some q
          /\ (q == fold_right Qplus 0
                     (zip_with (fun c c' : rgb =>
                                  (c.1.1 - c'.1.1) ^ 2 + (c.1.2 - c'.1.2) ^ 2
                                  + (c.2 - c'.2) ^ 2)
                        (feature out) rgb_gt)
                   / inject_Z (3 * Z.of_nat (length pixel_coords)))%Q)
    /\ (length (feature out) = length pixel_coords -> pixel_coords = [] -> loss = None).
Proof.
  intros H. apply train_iteration_Ok in H
    as (image & pose & pc & xy & rng & rays & gt & out & opt & vol
        & Hb & Hpix & Hrays & Hgt & Hout & Hloss & _).
  pose proof (sample_image_Ok _ _ _ Hgt) as HF.
  assert (Hmean : length (feature out) = length pc ->
                  loss = mean_sq_err (feature out) gt).
  { intros Hlen. apply Forall2_length in HF.
    unfold mse_loss in Hloss. rewrite Hlen, HF, Nat.eqb_refl in Hloss.
    congruence. }
  exists image, pose, pc, xy, rng, rays, out, gt.
  repeat (split; [assumption|]).
  split; [|split; [exact Hloss|split; [exact Hmean|split]]].
  - intros k x y r g b Hk Hc Hx Hy.
    destruct (Forall2_lookup_l _ _ _ _ _ HF Hk) as (c & Hc' & Hs).
    assert (Hcc : Some c = Some (r, g, b)) by (exact (eq_trans (eq_sym Hc') Hc)).
    injection Hcc as ->.
    destruct image as [[pr pg] pb]. unfold sample_pixel in Hs.
    unfold mbind, result_bind in Hs.
    destruct (sample_plane pr (x, y)) as [r'|] eqn:Hr; [|discriminate].
    destruct (sample_plane pg (x, y)) as [g'|] eqn:Hg; [|discriminate].
    destruct (sample_plane pb (x, y)) as [b'|] eqn:Hbb; [|discriminate].
    injection Hs as -> -> ->.
    destruct (sample_plane_at _ _ _ _ Hx Hy Hr) as (rr & ? & ?).
    destruct (sample_plane_at _ _ _ _ Hx Hy Hg) as (rg & ? & ?).
    destruct (sample_plane_at _ _ _ _ Hx Hy Hbb) as (rb & ? & ?).
    exists rr, rg, rb. simpl. repeat split; assumption.
  - intros Hlen Hne. rewrite (Hmean Hlen). unfold mean_sq_err.
    destruct (feature out) as [|c cs] eqn:Hf.
    { destruct pc; [contradiction|discriminate Hlen]. }
    eexists. split; [reflexivity|].
    rewrite sq_err_sum_spec, <- Hlen, Nat2Z.inj_mul. reflexivity.
  - intros Hlen ->. rewrite (Hmean Hlen).
    destruct (feature out); [reflexivity|discriminate Hlen].
Qed.




(** X1.  [render_images] reads the device of the model's first parameter
    before anything else: on a model without parameters it raises
    [IndexError], whatever the other arguments.  On a model with
    parameters, [num_images] = 0 or -1 gives no angle at all, so the call
    returns the empty list and does nothing else, and [num_images <= -2]
    makes [np.linspace] raise [ValueError]. *)
Theorem render_images_edge_cases model translation (num_images : Z) save file_prefix w :
  (parameters (w_implicit_fn w) = [] ->
   render_images model translation num_images save file_prefix w = Raise IndexError)
  /\ (parameters (w_implicit_fn w) <> [] ->
      ((num_images <= -2)%Z ->
       render_images model translation num_images save file_prefix w = Raise ValueError)
      /\ ((-1 <= num_images <= 0)%Z ->
          render_images model translation num_images save file_prefix w = Ok ([], w))).
Proof.
  unfold render_images. run_M. split.
  - intros ->. reflexivity.
  - intros Hp. destruct (parameters (w_implicit_fn w)) as [|p0 ps]; [congruence|].
    cbn. unfold Numpy.linspace. split.
    + intros Hn. destruct (num_images + 1 <? 0)%Z eqn:E; [reflexivity|].
      apply Z.ltb_ge in E. lia.
    + intros Hn. destruct (num_images + 1 <? 0)%Z eqn:E; [apply Z.ltb_lt in E; lia|].
      assert (Hc : num_images = (-1)%Z \/ num_images = 0%Z) by lia.
      destruct Hc as [-> | ->]; reflexivity.
Qed.

(** X2.  Assembling a frame succeeds exactly when the sensor's width and
    height are not negative, the validity mask has the sensor's shape
    (W rows of H cells), and the model returned one colour per valid
    pixel, or a single colour.  Otherwise it raises: [ValueError] for a
    negative dimension, [IndexError] for a mask of another shape, and
    [ValueError] for a wrong number of colours. *)
Theorem assemble_image_outcomes model out :
  let W := ss_W (ss (camera_model model)) in
  let H := ss_H (ss (camera_model model)) in
  let fits := map length (valid_mask model) = repeat (Z.to_nat H) (Z.to_nat W) in
  let counts := length (feature out) = Numpy.mask_count (valid_mask model)
                \/ length (feature out) = 1 in
  ((exists img, assemble_image model out = Ok img)
   <-> (0 <= W)%Z /\ (0 <= H)%Z /\ fits /\ counts)
  /\ ((W < 0)%Z \/ (H < 0)%Z -> assemble_image model out = Raise ValueError)
  /\ ((0 <= W)%Z -> (0 <= H)%Z -> ~ fits -> assemble_image model out = Raise IndexError)
  /\ ((0 <= W)%Z -> (0 <= H)%Z -> fits -> ~ counts ->
      assemble_image model out = Raise ValueError).
Proof.
  intros W H fits counts.
  assert (Hneg : (W < 0)%Z \/ (H < 0)%Z -> assemble_image model out = Raise ValueError).
  { intros Hn. unfold assemble_image, Numpy.zeros. fold W H.
    replace ((W <? 0)%Z || (H <? 0)%Z) with true; [reflexivity|].
    symmetry. apply orb_true_iff. destruct Hn; [left|right]; apply Z.ltb_lt; assumption. }
  assert (Hshape : (0 <= W)%Z -> (0 <= H)%Z -> ~ fits ->
                   assemble_image model out = Raise IndexError).
  { intros HW HH Hnf. unfold assemble_image. fold W H. rewrite (zeros_ok _ _ _ HW HH).
    unfold mbind, result_bind, Numpy.masked_assign.
    destruct (Numpy.same_shape _ (valid_mask model)) eqn:Hs; [|reflexivity].
    exfalso. apply Hnf. apply same_shape_dims in Hs. rewrite dims_repeat in Hs.
    unfold fits. congruence. }
  assert (Hfit : (0 <= W)%Z -> (0 <= H)%Z -> fits ->
                 Numpy.same_shape (repeat (repeat zero_rgb (Z.to_nat H)) (Z.to_nat W))
                   (valid_mask model) = true).
  { intros _ _ Hf. apply same_shape_dims. rewrite dims_repeat. unfold fits in Hf.
    congruence. }
  assert (Hcount : (0 <= W)%Z -> (0 <= H)%Z -> fits -> ~ counts ->
                   assemble_image model out = Raise ValueError).
  { intros HW HH Hf Hnc. unfold assemble_image. fold W H. rewrite (zeros_ok _ _ _ HW HH).
    unfold mbind, result_bind, Numpy.masked_assign. rewrite (Hfit HW HH Hf). simpl negb.
    cbn iota.
    destruct (length (feature out) =? Numpy.mask_count (valid_mask model)) eqn:E.
    - exfalso. apply Hnc. left. apply Nat.eqb_eq. exact E.
    - destruct (feature out) as [|v [|v' vs]] eqn:Hf'; try reflexivity.
      exfalso. apply Hnc. right. reflexivity. }
  split; [|split; [exact Hneg|split; [exact Hshape|exact Hcount]]].
  split.
  - intros [img Himg].
    destruct (Z_lt_le_dec W 0) as [HW|HW];
      [rewrite Hneg in Himg by (left; exact HW); discriminate|].
    destruct (Z_lt_le_dec H 0) as [HH|HH];
      [rewrite Hneg in Himg by (right; exact HH); discriminate|].
    destruct (decide (map length (valid_mask model) = repeat (Z.to_nat H) (Z.to_nat W)))
      as [Hf|Hnf]; [|rewrite (Hshape HW HH Hnf) in Himg; discriminate].
    destruct (decide (length (feature out) = Numpy.mask_count (valid_mask model)
                      \/ length (feature out) = 1))
      as [Hc|Hnc]; [|rewrite (Hcount HW HH Hf Hnc) in Himg; discriminate].
    repeat split; assumption.
  - intros (HW & HH & Hf & Hc). unfold assemble_image. fold W H.
    rewrite (zeros_ok _ _ _ HW HH). unfold mbind, result_bind, Numpy.masked_assign.
    rewrite (Hfit HW HH Hf). simpl negb. cbn iota.
    destruct (length (feature out) =? Numpy.mask_count (valid_mask model)) eqn:E;
      [eexists; reflexivity|].
    destruct Hc as [Hc|Hc]; [apply Nat.eqb_eq in Hc; congruence|].
    destruct (feature out) as [|v [|v' vs]]; try discriminate. eexists; reflexivity.
Qed.
Lemma frames_run_forward_modes model translation grad save file_prefix thetas imgs evs :
  frames_run model translation grad save file_prefix thetas imgs evs ->
  forward_modes evs = repeat grad (length thetas).
Proof.
  induction 1 as [|theta thetas pc out img imgs evs _ _ IH]; [reflexivity|].
  rewrite forward_modes_app, IH. unfold frame_events. rewrite forward_modes_app.
  destruct save; reflexivity.
Qed.

Lemma frames_run_count model translation grad save file_prefix thetas imgs evs p :
  (forall pc pose theta,
      count_events p (frame_events model pc pose grad save file_prefix theta) = 0) ->
  frames_run model translation grad save file_prefix thetas imgs evs ->
  count_events p evs = 0.
Proof.
  intros Hp. induction 1 as [|theta thetas pc out img imgs evs _ _ IH]; [reflexivity|].
  rewrite count_events_app, IH, Hp. reflexivity.
Qed.

Lemma render_block_cases cfg model epoch seen w w' :
  render_block cfg model epoch seen w = Ok (tt, w') ->
  render_interval (training cfg) <> 0%Z
  /\ ((render_due cfg epoch = false /\ w' = w)
      \/ (render_due cfg epoch = true
          /\ exists p imgs evs,
               vis_style cfg = "random_pose"
               /\ p ∈ seen
               /\ frames_run model (take 3 p) false false "" training_angles imgs evs
               /\ w' = logs ([EvPrint] ++ evs ++ [EvMimsave epoch (length imgs)])
                         (set_rng (snd (rng_next (w_rng w))) w))).
Proof.
  unfold render_block. intros H. apply bind_Ok in H as (due & w1 & Hdue & H).
  revert Hdue. unfold lift, divides.
  destruct (render_interval (training cfg) =? 0)%Z eqn:Hri; [discriminate|].
  intros [= <- <-]. apply Z.eqb_neq in Hri. split; [exact Hri|].
  fold (render_due cfg epoch) in H.
  destruct (render_due cfg epoch) eqn:Hd;
    [|left; split; [reflexivity|]; revert H; run_M; now intros [= <-]].
  right. split; [reflexivity|]. unfold no_grad in H.
  match type of H with
  | match ?body ?w0 with _ => _ end = _ => destruct (body w0) as [[[] w2]|] eqn:Hbody
  end; [|discriminate].
  injection H as <-.
  apply bind_Ok in Hbody as (test_images & w3 & Hfirst & Hbody).
  destruct (String.eqb (vis_style cfg) "random_pose") eqn:Hstyle.
  - apply String.eqb_eq in Hstyle.
    apply bind_Ok in Hfirst as (p & w4 & Hp & Hfirst).
    apply random_sample_one_Ok in Hp as (Hin & ->).
    apply bind_Ok in Hfirst as ([] & w5 & Hprint & Hfirst).
    revert Hprint. unfold emit. intros [= <-].
    apply bind_Ok in Hfirst as (imgs & w6 & Hr & Hfirst).
    apply render_images_Ok in Hr as (evs & -> & Hrun); [|lia].
    revert Hfirst. run_M. intros [= <- <-].
    apply bind_Ok in Hbody as (test_images & w7 & Hsecond & Hlast).
    rewrite Hstyle in Hsecond.
    change (String.eqb "random_pose" "trajectory") with false in Hsecond.
    revert Hsecond. run_M. intros [= <- <-].
    revert Hlast. unfold emit. intros [= <-].
    exists p, imgs, evs. repeat split; try assumption.
    destruct w. unfold logs, log, set_rng, set_grad_enabled. simpl.
    rewrite <- !app_assoc. reflexivity.
  - revert Hfirst. run_M. intros [= <- <-].
    apply bind_Ok in Hbody as (test_images & w7 & Hsecond & Hlast).
    destruct (String.eqb (vis_style cfg) "trajectory").
    + apply bind_Ok in Hsecond as (? & ? & _ & Hraise). discriminate Hraise.
    + revert Hsecond. run_M. intros [= <- <-]. discriminate Hlast.
Qed.

Lemma iteration_events_counts cfg model image_size pc pose :
  let evs := iteration_events cfg model image_size pc pose in
  count_events is_optimizer_step evs = 1
  /\ count_events is_lr_scheduler_step evs = 0
  /\ count_events is_save_checkpoint evs = 0
  /\ count_events is_mimsave evs = 0
  /\ forward_modes evs = [true].
Proof.
  unfold iteration_events. rewrite !count_events_app, !forward_modes_app.
  destruct (debug cfg); repeat split; reflexivity.
Qed.

Lemma py_index_first (B : Type) (l : list B) (b : B) :
  Numpy.py_index l 0 = Ok b <-> exists rest, l = b :: rest.
Proof.
  split.
  - intros H. apply (py_index_nonneg _ l 0%Z) in H; [|lia].
    destruct l as [|x rest]; [discriminate|]. injection H as ->. eauto.
  - intros [rest ->]. apply (py_index_in_range _ (b :: rest) 0 b). reflexivity.
Qed.

Lemma set_add_spec (p q : Pose) (seen : list Pose) :
  q ∈ set_add p seen <-> q = p \/ q ∈ seen.
Proof.
  unfold set_add. destruct (List.in_dec pose_eq_dec p seen) as [Hin|Hnin].
  - split; [auto|]. intros [->|H]; [|exact H]. apply list_elem_of_In. exact Hin.
  - rewrite elem_of_app, list_elem_of_singleton. tauto.
Qed.

Lemma set_add_NoDup (p : Pose) (seen : list Pose) :
  NoDup seen -> NoDup (set_add p seen).
Proof.
  intros Hnd. unfold set_add. destruct (List.in_dec pose_eq_dec p seen) as [Hin|Hnin];
    [exact Hnd|].
  apply NoDup_app. split; [exact Hnd|]. split; [|apply NoDup_singleton].
  intros x Hx Hx'. apply list_elem_of_singleton in Hx'. subst x.
  apply Hnin. apply list_elem_of_In. exact Hx.
Qed.

Lemma train_batches_counts cfg model image_size batches seen w seen' w' :
  train_batches cfg model image_size batches seen w = Ok (seen', w') ->
  (exists evs,
      w_trace w' = w_trace w ++ evs
      /\ count_events is_optimizer_step evs = length batches
      /\ count_events is_lr_scheduler_step evs = 0
      /\ count_events is_save_checkpoint evs = 0
      /\ count_events is_mimsave evs = 0
      /\ forward_modes evs = repeat true (length batches))
  /\ (forall p, p ∈ seen'
        <-> p ∈ seen \/ exists batch, batch ∈ batches /\ batch_pose batch = Some p)
  /\ (NoDup seen -> NoDup seen').
Proof.
  revert seen w. induction batches as [|batch rest IH]; intros seen w.
  - cbn. intros [= <- <-]. split; [|split].
    + exists []. rewrite app_nil_r. repeat split; reflexivity.
    + intros p. split; [auto|]. intros [H|(b & Hb & _)]; [exact H|]. inversion Hb.
    + auto.
  - cbn [train_batches]. intros H.
    apply bind_Ok in H as ([loss seen1] & w1 & Hit & Hrest).
    apply train_iteration_Ok in Hit
      as (image & pose & pc & xy & rng & rays & gt & out & opt & vol
          & Hb & _ & _ & _ & _ & _ & _ & _ & -> & ->).
    apply py_index_first in Hb as [tl ->].
    apply IH in Hrest as ((e2 & Ht & Ho & Hl & Hs & Hm & Hf) & Hseen & Hnd).
    destruct (iteration_events_counts cfg model image_size pc pose)
      as (Ho1 & Hl1 & Hs1 & Hm1 & Hf1).
    split; [|split].
    + exists (iteration_events cfg model image_size pc pose ++ e2).
      rewrite !count_events_app, forward_modes_app, Ho1, Hl1, Hs1, Hm1, Hf1, Ho, Hl, Hs,
        Hm, Hf.
      repeat split; try reflexivity.
      rewrite Ht. simpl. now rewrite <- app_assoc.
    + intros p. rewrite Hseen, set_add_spec. split.
      * intros [[->|H]|(b & Hb & Hp)].
        -- right. exists ((image, pose) :: tl). split; [apply elem_of_cons; now left|].
           reflexivity.
        -- left. exact H.
        -- right. exists b. split; [apply elem_of_cons; now right|exact Hp].
      * intros [H|(b & Hb & Hp)]; [left; right; exact H|].
        apply elem_of_cons in Hb as [->|Hb].
        -- left. left. simpl in Hp. congruence.
        -- right. exists b. split; assumption.
    + intros Hn. apply Hnd. apply set_add_NoDup. exact Hn.
Qed.

Lemma train_epoch_lr_count cfg model image_size train_dataset epoch seen w seen' w' :
  train_epoch cfg model image_size train_dataset epoch seen w = Ok (seen', w') ->
  exists evs,
    w_trace w' = w_trace w ++ evs
    /\ count_events is_lr_scheduler_step evs = 1.
Proof.
  intros H. apply train_epoch_Ok in H as (w1 & Hb & Hr).
  apply train_batches_counts in Hb as ((e1 & Ht1 & _ & Hl1 & _) & _).
  assert (Hend : count_events is_lr_scheduler_step (epoch_end_events cfg epoch) = 1).
  { unfold epoch_end_events. rewrite count_events_app. destruct (_ && _ && _); reflexivity. }
  apply render_block_cases in Hr
    as (_ & [(_ & ->)|(_ & p & imgs & e3 & _ & _ & Hrun & ->)]).
  - exists (e1 ++ epoch_end_events cfg epoch). split.
    + simpl. rewrite Ht1. simpl. now rewrite <- app_assoc.
    + rewrite count_events_app, Hl1, Hend. reflexivity.
  - exists (e1 ++ epoch_end_events cfg epoch ++ [EvPrint] ++ e3
            ++ [EvMimsave epoch (length imgs)]).
    split.
    + simpl. rewrite Ht1. simpl. now rewrite <- !app_assoc.
    + rewrite !count_events_app, Hl1, Hend.
      rewrite (frames_run_count _ _ _ _ _ _ _ _ is_lr_scheduler_step) with (2 := Hrun)
        by reflexivity.
      reflexivity.
Qed.

(** X3.  In an epoch that completes, the optimiser steps exactly once per
    batch and the learning-rate scheduler exactly once; every training
    forward pass tracks gradients; a checkpoint is written exactly when
    the epoch is positive, a multiple of the checkpoint interval, and the
    checkpoint path is not empty; and frames are rendered (20 forward
    passes without gradients, saved as one animation) exactly when the
    epoch is positive and a multiple of the render interval. *)
Theorem epoch_event_counts (cfg : Cfg) (model : Model) (image_size : list Z)
    (train_dataset : list (GtImage * Pose)) (epoch : Z) (seen : list Pose)
    (w : world) (seen' : list Pose) (w' : world) :
  train_epoch cfg model image_size train_dataset epoch seen w = Ok (seen', w') ->
  let batches := length (fst (data_loader (w_rng w) train_dataset)) in
  exists evs,
    w_trace w' = w_trace w ++ evs
    /\ count_events is_optimizer_step evs = batches
    /\ count_events is_lr_scheduler_step evs = 1
    /\ count_events is_save_checkpoint evs = (if checkpoint_due cfg epoch then 1 else 0)
    /\ count_events is_mimsave evs = (if render_due cfg epoch then 1 else 0)
    /\ forward_modes evs
       = repeat true batches ++ (if render_due cfg epoch then repeat false 20 else []).
Proof.
  intros H batches. apply train_epoch_Ok in H as (w1 & Hb & Hr).
  apply train_batches_counts in Hb as ((e1 & Ht1 & Ho1 & Hl1 & Hs1 & Hm1 & Hf1) & _).
  fold batches in Ho1, Hf1.
  fold (checkpoint_due cfg epoch) in Hr.
  assert (Hend : epoch_end_events cfg epoch
                 = [EvLrSchedulerStep]
                   ++ (if checkpoint_due cfg epoch then [EvPrint; EvSaveCheckpoint epoch]
                       else [])) by reflexivity.
  apply render_block_cases in Hr
    as (_ & [(Hd & ->)|(Hd & p & imgs & e3 & _ & _ & Hrun & ->)]); rewrite Hd.
  - exists (e1 ++ epoch_end_events cfg epoch). split; [|].
    + simpl. rewrite Ht1. simpl. now rewrite <- app_assoc.
    + rewrite !count_events_app, forward_modes_app, Ho1, Hl1, Hs1, Hm1, Hf1, Hend.
      rewrite !count_events_app, forward_modes_app.
      destruct (checkpoint_due cfg epoch); unfold count_events; simpl;
        rewrite ?app_nil_r; repeat split; first [lia | reflexivity].
  - exists (e1 ++ epoch_end_events cfg epoch ++ [EvPrint] ++ e3
            ++ [EvMimsave epoch (length imgs)]).
    split.
    + simpl. rewrite Ht1. simpl. now rewrite <- !app_assoc.
    + pose proof (frames_run_forward_modes _ _ _ _ _ _ _ _ Hrun) as Hfm.
      assert (Hz : forall q, (forall pc pose theta,
                     count_events q (frame_events model pc pose false false "" theta) = 0) ->
                   count_events q e3 = 0).
      { intros q Hq. eapply frames_run_count; eassumption. }
      rewrite !count_events_app, !forward_modes_app, Ho1, Hl1, Hs1, Hm1, Hf1, Hend, Hfm.
      rewrite !count_events_app, forward_modes_app.
      rewrite !Hz by reflexivity.
      unfold training_angles. rewrite length_map, length_seq.
      destruct (checkpoint_due cfg epoch); unfold count_events; simpl;
        rewrite ?app_nil_r; repeat split; first [lia | reflexivity].
Qed.

Lemma train_epoch_checkpoint_interval cfg model image_size train_dataset epoch seen w
    seen' w' :
  train_epoch cfg model image_size train_dataset epoch seen w = Ok (seen', w') ->
  checkpoint_interval (training cfg) <> 0%Z.
Proof.
  unfold train_epoch. intros H. apply bind_Ok in H as (w0 & w0' & Hw & H).
  destruct (data_loader (w_rng w0) train_dataset) as [batches rng].
  apply bind_Ok in H as ([] & w2 & _ & H).
  apply bind_Ok in H as (seen1 & w3 & _ & H).
  apply bind_Ok in H as ([] & w4 & _ & H).
  apply bind_Ok in H as ([] & w5 & _ & H).
  apply bind_Ok in H as (due & w6 & Hdue & _).
  revert Hdue. unfold lift, divides.
  destruct (checkpoint_interval (training cfg) =? 0)%Z eqn:E; [discriminate|].
  intros _. apply Z.eqb_neq. exact E.
Qed.


(** X4.  An epoch of training completes only if both intervals are
    nonzero and, when rendering is due in it (positive epoch, multiple of
    the render interval), the visualisation style is "random_pose" and at
    least one pose has been seen. *)
Theorem epoch_completes_only_if (cfg : Cfg) (model : Model) (image_size : list Z)
    (train_dataset : list (GtImage * Pose)) (epoch : Z) (seen : list Pose)
    (w : world) (seen' : list Pose) (w' : world) :
  train_epoch cfg model image_size train_dataset epoch seen w = Ok (seen', w') ->
  checkpoint_interval (training cfg) <> 0%Z
  /\ render_interval (training cfg) <> 0%Z
  /\ (render_due cfg epoch = true -> vis_style cfg = "random_pose" /\ seen' <> []).
Proof.
  intros H. split; [eapply train_epoch_checkpoint_interval; eassumption|].
  apply train_epoch_Ok in H as (w1 & _ & Hr).
  apply render_block_cases in Hr as (Hri & [(Hd & _)|(_ & p & imgs & evs & Hs & Hin & _)]).
  - split; [exact Hri|]. congruence.
  - split; [exact Hri|]. intros _. split; [exact Hs|].
    intros ->. inversion Hin.
Qed.


Lemma train_batches_poses cfg model image_size batches seen w seen' w' :
  train_batches cfg model image_size batches seen w = Ok (seen', w') ->
  exists evs,
    w_trace w' = w_trace w ++ evs
    /\ Forall2 (fun batch pose => batch_pose batch = Some pose) batches (poses_used evs).
Proof.
  revert seen w. induction batches as [|batch rest IH]; intros seen w.
  - cbn. intros [= <- <-]. exists []. rewrite app_nil_r. split; [reflexivity|constructor].
  - cbn [train_batches]. intros H.
    apply bind_Ok in H as ([loss seen1] & w1 & Hit & Hrest).
    apply train_iteration_Ok in Hit
      as (image & pose & pc & xy & rng & rays & gt & out & opt & vol
          & Hb & _ & _ & _ & _ & _ & _ & _ & -> & ->).
    apply py_index_first in Hb as [tl ->].
    apply IH in Hrest as (e2 & Ht & HF).
    exists (iteration_events cfg model image_size pc pose ++ e2). split.
    + rewrite Ht. simpl. now rewrite <- app_assoc.
    + rewrite poses_used_app.
      replace (poses_used (iteration_events cfg model image_size pc pose)) with [pose]
        by (unfold iteration_events; rewrite !poses_used_app; destruct (debug cfg);
            reflexivity).
      constructor; [reflexivity|exact HF].
Qed.

(** C7.  When the poses of the data set are 7-value vectors, an epoch of
    training that completes has handed to the ray generator, batch by
    batch, the pose of the batch's first sample, a 7-value vector, and
    every pose remembered as seen is a 7-value vector.  When rendering is
    due in the epoch, the poses handed to the ray generator after that
    are, frame by frame, [[*translation, *quat]] where the translation
    passed to [render_images] is [pose[0:3]] of one seen pose and [quat]
    holds the four values of the frame's quaternion: 7 values, of which
    the first 3 are the translation and the last 4 the orientation.  When
    no rendering is due, nothing follows the training part. *)
Theorem poses_have_seven_values (cfg : Cfg) (model : Model) (image_size : list Z)
    (train_dataset : list (GtImage * Pose)) (epoch : Z) (seen : list Pose)
    (w : world) (seen' : list Pose) (w' : world) :
  Forall (fun p => length p = 7) seen ->
  Forall (Forall (fun s => length (snd s) = 7))
    (fst (data_loader (w_rng w) train_dataset)) ->
  train_epoch cfg model image_size train_dataset epoch seen w = Ok (seen', w') ->
  Forall (fun p => length p = 7) seen'
  /\ exists evs_train evs_render,
       w_trace w' = w_trace w ++ evs_train ++ evs_render
       /\ Forall2 (fun batch pose => batch_pose batch = Some pose /\ length pose = 7)
            (fst (data_loader (w_rng w) train_dataset)) (poses_used evs_train)
       /\ (render_due cfg epoch = false -> evs_render = [])
       /\ (render_due cfg epoch = true ->
           exists p,
             p ∈ seen'
             /\ poses_used evs_render
                = map (fun theta =>
                         take 3 p ++ Scipy.as_quat (Scipy.from_euler_z theta true))
                    training_angles
             /\ length (poses_used evs_render) = 20
             /\ Forall (fun pose =>
                          length pose = 7
                          /\ take 3 pose = take 3 p /\ length (take 3 pose) = 3
                          /\ length (drop 3 pose) = 4)
                  (poses_used evs_render)).
Proof.
  intros Hseen Hds H. apply train_epoch_Ok in H as (w1 & Hb & Hr).
  pose proof (train_batches_summary _ _ _ _ _ _ _ _ Hb) as (e0 & _ & _ & HP).
  destruct (HP (fun p => length p = 7) Hds Hseen) as [_ Hseen'].
  apply train_batches_poses in Hb as (e1 & Ht1 & HF).
  split; [exact Hseen'|].
  assert (Hend : poses_used (epoch_end_events cfg epoch) = []).
  { unfold epoch_end_events. rewrite poses_used_app. destruct (_ && _ && _); reflexivity. }
  assert (Htrain : Forall2 (fun batch pose => batch_pose batch = Some pose /\ length pose = 7)
                     (fst (data_loader (w_rng w) train_dataset))
                     (poses_used (e1 ++ epoch_end_events cfg epoch))).
  { rewrite poses_used_app, Hend, app_nil_r.
    clear -HF Hds. induction HF as [|batch pose batches poses Hbp _ IH]; [constructor|].
    apply Forall_cons in Hds as [Hd1 Hd2]. constructor; [|apply IH; exact Hd2].
    split; [exact Hbp|]. destruct batch as [|[img q] tl]; [discriminate|].
    injection Hbp as ->. apply Forall_cons in Hd1 as [Hd1 _]. exact Hd1. }
  apply render_block_cases in Hr
    as (_ & [(Hd & ->)|(Hd & p & imgs & evs & _ & Hin & Hrun & ->)]).
  - exists (e1 ++ epoch_end_events cfg epoch), []. split; [|split; [exact Htrain|split]].
    + simpl. rewrite Ht1. simpl. now rewrite app_nil_r, <- !app_assoc.
    + reflexivity.
    + congruence.
  - exists (e1 ++ epoch_end_events cfg epoch),
      ([EvPrint] ++ evs ++ [EvMimsave epoch (length imgs)]).
    split; [|split; [exact Htrain|split; [congruence|]]].
    + simpl. rewrite Ht1. simpl. now rewrite <- !app_assoc.
    + intros _. exists p. split; [exact Hin|].
      assert (Hposes : poses_used ([EvPrint] ++ evs ++ [EvMimsave epoch (length imgs)])
                       = map (fun theta =>
                                take 3 p ++ Scipy.as_quat (Scipy.from_euler_z theta true))
                           training_angles).
      { rewrite !poses_used_app. simpl. rewrite app_nil_r.
        exact (frames_run_poses _ _ _ _ _ _ _ _ Hrun). }
      rewrite Forall_forall in Hseen'. pose proof (Hseen' _ Hin) as Hlen.
      assert (Hl3 : length (take 3 p) = 3) by (rewrite length_take; lia).
      split; [exact Hposes|]. rewrite Hposes. split.
      * rewrite length_map. unfold training_angles. rewrite length_map, length_seq.
        reflexivity.
      * apply Forall_forall. intros pose Hpose.
        apply list_elem_of_fmap in Hpose as (theta & -> & _).
        rewrite take_app_length', drop_app_length' by (symmetry; exact Hl3).
        rewrite length_app, Hl3. repeat split; reflexivity.
Qed.

(** X6.  After an epoch that completes, the set of seen poses holds
    exactly the poses seen before and the pose of the first sample of
    every batch of the epoch, still without duplicates; and when rendering
    was due, the 20 frames were rendered at the first three values of one
    of those poses, one frame per angle. *)
Theorem rendered_pose_was_trained_on (cfg : Cfg) (model : Model) (image_size : list Z)
    (train_dataset : list (GtImage * Pose)) (epoch : Z) (seen : list Pose)
    (w : world) (seen' : list Pose) (w' : world) :
  train_epoch cfg model image_size train_dataset epoch seen w = Ok (seen', w') ->
  (forall p,
      p ∈ seen'
      <-> p ∈ seen
          \/ exists batch,
               batch ∈ fst (data_loader (w_rng w) train_dataset)
               /\ batch_pose batch = Some p)
  /\ (NoDup seen -> NoDup seen')
  /\ (render_due cfg epoch = true ->
      exists p evs_train evs_render,
        p ∈ seen'
        /\ w_trace w' = w_trace w ++ evs_train ++ evs_render
        /\ poses_used evs_render = map (frame_pose (take 3 p)) training_angles).
Proof.
  intros H. apply train_epoch_Ok in H as (w1 & Hb & Hr).
  apply train_batches_counts in Hb as ((e1 & Ht1 & _) & Hseen & Hnd).
  split; [exact Hseen|]. split; [exact Hnd|].
  intros Hd.
  apply render_block_cases in Hr
    as (_ & [(Hd' & _)|(_ & p & imgs & evs & _ & Hin & Hrun & ->)]); [congruence|].
  exists p, (e1 ++ epoch_end_events cfg epoch),
    ([EvPrint] ++ evs ++ [EvMimsave epoch (length imgs)]).
  split; [exact Hin|]. split.
  - simpl. rewrite Ht1. simpl. now rewrite <- !app_assoc.
  - rewrite !poses_used_app. simpl. rewrite app_nil_r.
    exact (frames_run_poses _ _ _ _ _ _ _ _ Hrun).
Qed.

(** X7.  [create_model] resumes exactly when the checkpoint path is not
    empty, resuming is asked for and the checkpoint file exists: then the
    implicit volume and the start epoch are the stored ones and the
    optimiser, built on the restored volume, takes the stored state.
    Otherwise training starts at epoch 0 on the freshly constructed
    volume with a fresh optimiser.  In both cases the scheduler is set to
    the epoch before the start epoch, and the validity mask is computed
    once, by the model's constructor. *)
Theorem create_model_resumes_or_starts_fresh (cfg : Cfg) (w : world) (model : Model)
    (start_epoch : Z) (path : string) (w' : world) :
  create_model cfg w = Ok ((model, start_epoch, path), w') ->
  let t := training cfg in
  path = checkpoint_file (checkpoint_path t)
  /\ exists w1,
       Model_init cfg w = Ok (model, w1)
       /\ (if (0 <? String.length (checkpoint_path t))%nat && resume t && isfile path
           then exists vol opt,
                  torch_load path = Ok (vol, opt, start_epoch)
                  /\ w_implicit_fn w' = vol
                  /\ w_optimizer w'
                     = lambda_lr (optimizer_load_state_dict (adam vol (lr t)) opt start_epoch)
                         (lr_scheduler_gamma t) (lr_scheduler_step_size t)
                         (start_epoch - 1)
           else start_epoch = 0%Z
                /\ w_implicit_fn w' = w_implicit_fn w1
                /\ w_optimizer w'
                   = lambda_lr (adam (w_implicit_fn w1) (lr t)) (lr_scheduler_gamma t)
                       (lr_scheduler_step_size t) (-1))
       /\ count_events is_get_valid_mask (w_trace w')
          = count_events is_get_valid_mask (w_trace w1).
Proof.
  intros H. cbv zeta. set (t := training cfg). unfold create_model in H. fold t in H.
  apply bind_Ok in H as (m & w1 & Hinit & H).
  revert H. run_M. intros H.
  destruct (0 <? String.length (checkpoint_path t))%nat eqn:Hp; cbn [andb] in *;
    [destruct (resume t) eqn:Hres; cbn [andb] in *;
     [destruct (isfile (checkpoint_file (checkpoint_path t))) eqn:Hfile|]|];
    cbn beta iota in H.
  - destruct (torch_load (checkpoint_file (checkpoint_path t))) as [[[vol opt] e]|] eqn:Hl;
      [|discriminate].
    cbn beta iota in H. injection H as <- <- <- <-.
    split; [reflexivity|]. exists w1. split; [exact Hinit|]. rewrite Hfile. split.
    + exists vol, opt. repeat split. exact Hl.
    + unfold log, set_optimizer, set_implicit_fn. simpl.
      rewrite !count_events_app. unfold count_events. simpl. lia.
  - injection H as <- <- <- <-.
    split; [reflexivity|]. exists w1. split; [exact Hinit|]. rewrite Hfile. split.
    + repeat split.
    + unfold log, set_optimizer, set_implicit_fn. simpl.
      rewrite !count_events_app. unfold count_events. simpl. lia.
  - injection H as <- <- <- <-.
    split; [reflexivity|]. exists w1. split; [exact Hinit|]. split.
    + repeat split.
    + unfold log, set_optimizer, set_implicit_fn. simpl.
      rewrite !count_events_app. unfold count_events. simpl. lia.
  - injection H as <- <- <- <-.
    split; [reflexivity|]. exists w1. split; [exact Hinit|]. split.
    + repeat split.
    + unfold log, set_optimizer, set_implicit_fn. simpl.
      rewrite !count_events_app. unfold count_events. simpl. lia.
Qed.

Lemma range_length (start stop : Z) : length (range start stop) = Z.to_nat (stop - start).
Proof. unfold range. now rewrite length_map, length_seq. Qed.

Lemma train_epochs_lr_count cfg model image_size train_dataset epochs seen w w' :
  train_epochs cfg model image_size train_dataset epochs seen w = Ok (tt, w') ->
  (epochs = [] -> w' = w)
  /\ exists evs,
       w_trace w' = w_trace w ++ evs
       /\ count_events is_lr_scheduler_step evs = length epochs.
Proof.
  revert seen w. induction epochs as [|epoch rest IH]; intros seen w.
  - cbn. intros [= <-]. split; [reflexivity|]. exists []. now rewrite app_nil_r.
  - cbn [train_epochs]. intros H. apply bind_Ok in H as (seen1 & w1 & He & H).
    split; [discriminate|].
    apply train_epoch_lr_count in He as (e1 & Ht1 & Hl1).
    apply IH in H as (_ & e2 & Ht2 & Hl2).
    exists (e1 ++ e2). split; [rewrite Ht2, Ht1; now rewrite app_assoc|].
    rewrite count_events_app, Hl1, Hl2. reflexivity.
Qed.

(** X8.  A run of [train] that completes has read both entries of
    [cfg.data.image_shape], and after [create_model] it runs exactly the
    epochs from the start epoch up to [num_epochs - 1]: the scheduler
    steps [num_epochs - start_epoch] times, and when the start epoch (0,
    or the one restored from a checkpoint) is not below [num_epochs],
    nothing is trained and the world is left as [create_model] left it. *)
Theorem train_runs_the_remaining_epochs (cfg : Cfg) (w w' : world) :
  train cfg w = Ok (tt, w') ->
  2 <= length (image_shape (data cfg))
  /\ exists model start_epoch path w1 evs,
       create_model cfg w = Ok ((model, start_epoch, path), w1)
       /\ w_trace w' = w_trace w1 ++ evs
       /\ count_events is_lr_scheduler_step evs
          = Z.to_nat (num_epochs (training cfg) - start_epoch)
       /\ ((num_epochs (training cfg) <= start_epoch)%Z -> w' = w1).
Proof.
  unfold train. intros H.
  apply bind_Ok in H as (width & w0 & Hw & H).
  revert Hw. unfold lift.
  destruct (Numpy.py_index (image_shape (data cfg)) 1) as [wd|] eqn:Hwd; [|discriminate].
  intros [= <- <-].
  apply bind_Ok in H as (height & w0 & Hh & H).
  revert Hh. unfold lift. destruct (Numpy.py_index _ 0); [|discriminate].
  intros [= <- <-]. split.
  { apply (py_index_nonneg _ _ 1%Z) in Hwd; [|lia]. apply lookup_lt_Some in Hwd.
    change (Z.to_nat 1) with 1 in Hwd. lia. }
  apply bind_Ok in H as ([[model start_epoch] path] & w2 & Hc & H).
  apply bind_Ok in H as ([td vd] & w3 & Hd & H).
  revert Hd. unfold lift. destruct (get_dataset _ _) as [[td' vd']|]; [|discriminate].
  intros [= <- <- <-].
  apply train_epochs_lr_count in H as (Hnil & evs & Ht & Hl).
  exists model, start_epoch, path, w2, evs. split; [exact Hc|]. split; [exact Ht|].
  rewrite range_length in Hl. split; [exact Hl|].
  intros Hle. apply Hnil. unfold range.
  replace (Z.to_nat (num_epochs (training cfg) - start_epoch)) with 0 by lia.
  reflexivity.
Qed.

Lemma py_index_too_short (B : Type) (l : list B) (i : Z) :
  (Z.of_nat (length l) <= i)%Z -> Numpy.py_index l i = Raise IndexError.
Proof.
  intros Hi. unfold Numpy.py_index.
  destruct (i <? 0)%Z eqn:E; [apply Z.ltb_lt in E; lia|].
  replace (i <? Z.of_nat (length l))%Z with false; [now rewrite andb_false_r|].
  symmetry. apply Z.ltb_ge. exact Hi.
Qed.

(** X11.  Edge cases of [create_surround_cameras]: [n_poses] = 0 or -1
    gives the empty list, whatever [up] is; [n_poses <= -2] makes
    [np.linspace] raise [ValueError]; and for [n_poses >= 1] an [up] with
    fewer than two components raises [IndexError]. *)
Theorem create_surround_cameras_edge_cases (radius : R) (n : Z) (up : list R) (focal : R) :
  ((-1 <= n <= 0)%Z -> create_surround_cameras radius n up focal = Ok [])
  /\ ((n <= -2)%Z -> create_surround_cameras radius n up focal = Raise ValueError)
  /\ ((1 <= n)%Z -> length up < 2 ->
      create_surround_cameras radius n up focal = Raise IndexError).
Proof.
  unfold create_surround_cameras. unfold mbind, result_bind. split; [|split].
  - intros Hn. assert (Hc : n = (-1)%Z \/ n = 0%Z) by lia.
    destruct Hc as [-> | ->]; reflexivity.
  - intros Hn. unfold Numpy.linspace.
    destruct (n + 1 <? 0)%Z eqn:E; [reflexivity|]. apply Z.ltb_ge in E. lia.
  - intros Hn Hup. destruct (linspace_angles n ltac:(lia)) as (thetas & -> & Hd).
    rewrite Hd. replace (Z.to_nat n) with (S (Z.to_nat (n - 1))) by lia.
    cbn [seq map surround_loop]. unfold eye at 1.
    rewrite py_index_too_short by lia. reflexivity.
Qed.

End ProgramFacts.

Section Witnesses.
Import Fixture.
#[local] Existing Instance toy.

Lemma valid_mask_computed_once_witness :
  train toy_cfg toy_world = Ok (tt, toy_train_world)
  /\ exists evs,
       w_trace toy_train_world
       = w_trace toy_world ++ EvGetValidMask (model_camera toy_cfg) :: evs
       /\ count_events is_get_valid_mask evs = 0
       /\ Forall (fun m => m = get_valid_mask (model_camera toy_cfg)) (masks_used evs).
Proof.
  split; [reflexivity|].
  exact (proj1 (valid_mask_computed_once toy_cfg toy_world toy_train_world eq_refl)).
Defined.

Lemma variants_come_from_registries_witness :
  Model_init toy_cfg toy_world
  = Ok (toy_trained_model, logs [EvGetValidMask (model_camera toy_cfg)] toy_world)
  /\ exists make_volume make_sampler make_renderer,
       volume_dict !! "grid" = Some make_volume
       /\ sampler_dict !! "stratified" = Some make_sampler
       /\ renderer_dict !! "volume" = Some make_renderer
       /\ (0 : Volume) = make_volume (implicit_function toy_cfg)
       /\ tt = make_sampler (cfg_sampler toy_cfg)
       /\ tt = make_renderer (cfg_renderer toy_cfg).
Proof.
  split; [reflexivity|].
  exact (proj1 (variants_come_from_registries toy_cfg toy_world) _ _ eq_refl).
Defined.


Lemma loss_is_mse_at_sampled_pixels_witness :
  train_iteration toy_cfg toy_model [1; 1]%Z [(toy_grey_image, toy_pose)] [] toy_world
  = Ok ((Some (5 # 12)%Q, [toy_pose]),
        logs (iteration_events toy_cfg toy_model [1; 1]%Z [(0, 0)%Z] toy_pose)
          (set_optimizer 1 (set_implicit_fn 1 (set_rng 1 toy_world))))
  /\ exists q,
       Some (5 # 12)%Q = Some q
       /\ (q == ((1 - 0) ^ 2 + (0 - (1 # 2)) ^ 2 + (0 - 0) ^ 2 + 0) / inject_Z (3 * 1))%Q.
Proof.
  split; [reflexivity|].
  destruct (loss_is_mse_at_sampled_pixels toy_cfg toy_model [1; 1]%Z
              [(toy_grey_image, toy_pose)] [] toy_world _ _ _ eq_refl)
    as (image & pose & pc & xy & rng & rays & out & gt
        & Hb & Hpix & Hrays & Hout & HF & _ & _ & _ & Hmse & _).
  injection Hb as <- <-. injection Hpix as <- <- <-. injection Hrays as <-.
  injection Hout as <-.
  apply Forall2_cons_inv_l in HF as (c & gt' & Hc & HF & ->).
  apply Forall2_nil_inv_l in HF as ->. injection Hc as <-.
  destruct (Hmse eq_refl ltac:(discriminate)) as (q & Hq & Hval).
  exists q. split; [exact Hq|exact Hval].
Defined.



Lemma poses_have_seven_values_witness :
  Forall (fun p : Pose => length p = 7) []
  /\ Forall (Forall (fun s : GtImage * Pose => length (snd s) = 7))
       (fst (data_loader (w_rng toy_world) [toy_sample]))
  /\ train_epoch toy_cfg toy_model [1; 1]%Z [toy_sample] 1 [] toy_world
     = Ok ([toy_pose], toy_epoch_world)
  /\ exists evs_train evs_render,
       w_trace toy_epoch_world = w_trace toy_world ++ evs_train ++ evs_render
       /\ poses_used evs_train = [toy_pose]
       /\ poses_used evs_render
          = map (fun theta =>
                   [1; 2; 3]%R ++ Scipy.as_quat (Scipy.from_euler_z theta true))
              training_angles.
Proof.
  assert (H1 : Forall (fun p : Pose => length p = 7) []) by constructor.
  assert (H2 : Forall (Forall (fun s : GtImage * Pose => length (snd s) = 7))
                 (fst (data_loader (w_rng toy_world) [toy_sample]))).
  { repeat constructor. }
  split; [exact H1|]. split; [exact H2|]. split; [reflexivity|].
  destruct (poses_have_seven_values toy_cfg toy_model [1; 1]%Z [toy_sample] 1 []
              toy_world [toy_pose] toy_epoch_world H1 H2 eq_refl)
    as (_ & evs_train & evs_render & Ht & Htrain & _ & Hrender).
  destruct (Hrender eq_refl) as (p & Hp & Hposes & _).
  apply list_elem_of_singleton in Hp. subst p.
  exists evs_train, evs_render. split; [exact Ht|]. split; [|exact Hposes].
  apply Forall2_cons_inv_l in Htrain as (pose & rest & [Hpose _] & Hrest & ->).
  apply Forall2_nil_inv_l in Hrest as ->. injection Hpose as <-. reflexivity.
Defined.

Lemma render_images_poses_witness :
  (1 <= 2)%Z
  /\ exists imgs w',
       render_images toy_model [1; 2; 3]%R 2 false "" toy_world = Ok (imgs, w')
       /\ length imgs = 2.
Proof.
  assert (Hn : (1 <= 2)%Z) by lia.
  split; [exact Hn|].
  destruct (render_images_poses toy_model [1; 2; 3]%R 2 false "" toy_world Hn)
    as (Hret & _ & _ & Htotal).
  destruct Htotal as (imgs & w' & Hr).
  { split; [discriminate|]. split; [simpl; lia|]. split; [simpl; lia|].
    split; [reflexivity|]. split; [repeat constructor|].
    exists [(0, 0)%Z], tt. split; [reflexivity|].
    intros pose. exists [(0, 0)%Z], {| feature := [red] |}.
    repeat split; reflexivity. }
  exists imgs, w'. split; [exact Hr|]. exact (proj1 (Hret imgs w' Hr)).
Defined.



Lemma epoch_event_counts_witness :
  train_epoch toy_cfg toy_model [1; 1]%Z [toy_sample] 1 [] toy_world
  = Ok ([toy_pose], toy_epoch_world)
  /\ exists evs,
       w_trace toy_epoch_world = w_trace toy_world ++ evs
       /\ count_events is_optimizer_step evs = 1
       /\ count_events is_lr_scheduler_step evs = 1
       /\ count_events is_save_checkpoint evs = 0
       /\ count_events is_mimsave evs = 1
       /\ forward_modes evs = [true] ++ repeat false 20.
Proof.
  split; [reflexivity|].
  exact (epoch_event_counts toy_cfg toy_model [1; 1]%Z [toy_sample] 1 [] toy_world
           [toy_pose] toy_epoch_world eq_refl).
Defined.

Lemma epoch_completes_only_if_witness :
  train_epoch toy_cfg toy_model [1; 1]%Z [toy_sample] 1 [] toy_world
  = Ok ([toy_pose], toy_epoch_world)
  /\ checkpoint_interval (training toy_cfg) <> 0%Z
  /\ render_interval (training toy_cfg) <> 0%Z.
Proof.
  split; [reflexivity|].
  destruct (epoch_completes_only_if toy_cfg toy_model [1; 1]%Z [toy_sample] 1 []
              toy_world [toy_pose] toy_epoch_world eq_refl) as (H1 & H2 & _).
  split; assumption.
Defined.

Lemma rendered_pose_was_trained_on_witness :
  train_epoch toy_cfg toy_model [1; 1]%Z [toy_sample] 1 [] toy_world
  = Ok ([toy_pose], toy_epoch_world)
  /\ NoDup [toy_pose]
  /\ exists p evs_train evs_render,
       p ∈ [toy_pose]
       /\ w_trace toy_epoch_world = w_trace toy_world ++ evs_train ++ evs_render
       /\ poses_used evs_render = map (frame_pose (take 3 p)) training_angles.
Proof.
  split; [reflexivity|].
  destruct (rendered_pose_was_trained_on toy_cfg toy_model [1; 1]%Z [toy_sample] 1 []
              toy_world [toy_pose] toy_epoch_world eq_refl) as (_ & Hnd & Hr).
  split; [apply Hnd; constructor|]. apply Hr. reflexivity.
Defined.

Lemma create_model_resumes_or_starts_fresh_witness :
  @create_model toy_resuming toy_resume_cfg toy_blank_world
  = Ok ((toy_resumed_model, 3%Z, "ckpt"), toy_resumed_world)
  /\ "ckpt" = @checkpoint_file toy_resuming (checkpoint_path (training toy_resume_cfg)).
Proof.
  split; [reflexivity|].
  exact (proj1 (@create_model_resumes_or_starts_fresh toy_resuming toy_resume_cfg
                  toy_blank_world toy_resumed_model 3%Z "ckpt" toy_resumed_world eq_refl)).
Defined.

Lemma train_runs_the_remaining_epochs_witness :
  train toy_cfg toy_world = Ok (tt, toy_train_world)
  /\ 2 <= length (image_shape (data toy_cfg)).
Proof.
  split; [reflexivity|].
  exact (proj1 (train_runs_the_remaining_epochs toy_cfg toy_world toy_train_world eq_refl)).
Defined.

Lemma run_py_fails_on_render_images_in_poses_witness :
  forallb (Imports.satisfiable toy_installed) Imports.run_py_head = true
  /\ forallb (Imports.satisfiable toy_installed) Imports.render_py = true
  /\ Imports.load_run_py toy_installed true
     = Raise (ImportError "utils.render" "render_images_in_poses").
Proof.
  assert (H1 : forallb (Imports.satisfiable toy_installed) Imports.run_py_head = true)
    by (vm_compute; reflexivity).
  assert (H2 : forallb (Imports.satisfiable toy_installed) Imports.render_py = true)
    by (vm_compute; reflexivity).
  split; [exact H1|]. split; [exact H2|].
  exact (run_py_fails_on_render_images_in_poses toy_installed true H1 H2).
Defined.

Lemma render_py_loads_iff_witness :
  exists ns,
    Imports.exec_module (Imports.find_installed toy_installed) false Imports.render_py
      ∅ None = Ok (ns, None).
Proof.
  apply (proj1 (render_py_loads_iff toy_installed)). vm_compute. reflexivity.
Defined.

Lemma render_images_edge_cases_witness :
  render_images toy_model [1; 2; 3]%R 0 false "" toy_world = Ok ([], toy_world)
  /\ render_images toy_model [1; 2; 3]%R (-2) false "" toy_world = Raise ValueError.
Proof.
  destruct (render_images_edge_cases toy_model [1; 2; 3]%R 0 false "" toy_world)
    as [_ H0].
  destruct (render_images_edge_cases toy_model [1; 2; 3]%R (-2) false "" toy_world)
    as [_ H2].
  split.
  - apply H0; [discriminate|lia].
  - apply H2; [discriminate|lia].
Defined.

Lemma assemble_image_outcomes_witness :
  assemble_image toy_model {| feature := [red; red; red] |} = Raise ValueError.
Proof.
  apply (assemble_image_outcomes toy_model {| feature := [red; red; red] |}).
  - simpl. lia.
  - simpl. lia.
  - reflexivity.
  - simpl. intros [H|H]; discriminate.
Defined.


Lemma create_surround_cameras_edge_cases_witness :
  create_surround_cameras 3 0 [] 1 = Ok []
  /\ create_surround_cameras 3 2 [1%R] 1 = Raise IndexError.
Proof.
  split.
  - apply (create_surround_cameras_edge_cases 3 0 [] 1). lia.
  - apply (create_surround_cameras_edge_cases 3 2 [1%R] 1); [lia|simpl; lia].
Defined.

End Witnesses.
